(** * FinancialAnalysis: the ingestion pipeline and the query handler

    A shallow embedding of [backend/index_data.py] (the batch indexer) and of
    [backend/main.py] (the [/research] handler), with the properties of the
    specification proved over it.

    - Python values are an inductive type [pyval]; the provider's response
      is a [gmap string pyval] (only [.get] is used on it), the record built
      by [get_stock_info] is an association list in insertion order (the
      code iterates over it).
    - The module-level ledgers, the two ledger files and the calls made to
      the outside (provider, vector store) are one explicit [state], threaded
      through a small state-and-exception monad.
    - The provider and the vector store are outside the repository: they are
      the fields of a [World], and every theorem holds for every world.
    - [ThreadPoolExecutor] is a transition system over configurations. *)

From stdpp Require Import gmap strings list pretty.
From Stdlib Require Import Ascii ZArith Lia.

Set Warnings "-register-all".

Open Scope Z_scope.
Open Scope stdpp_scope.

(** ** Python values *)

(** A float is carried by the text [repr] prints for it: the program never
    computes with a float, it tests its type and its truth value and prints
    it. A [dict] value met inside the provider's response (a nested object)
    has string keys, as JSON has. *)
Inductive pyval : Type :=
| VNone
| VBool (b : bool)
| VInt (n : Z)
| VFloat (repr : string)
| VStr (s : string)
| VList (items : list pyval)
| VDict (items : list (string * pyval)).

(** A [dict] whose iteration order the code relies on. *)
Abbreviation dict := (list (string * pyval)).

(** [bool(v)]: what [or] and [not] test. *)
Definition truthy (v : pyval) : bool :=
  match v with
  | VNone => false
  | VBool b => b
  | VInt n => negb (n =? 0)
  | VFloat r => negb (String.eqb r "0.0" || String.eqb r "-0.0")
  | VStr s => negb (String.eqb s "")
  | VList items => match items with [] => false | _ => true end
  | VDict items => match items with [] => false | _ => true end
  end.

(** [a or b]. *)
Definition py_or (a b : pyval) : pyval := if truthy a then a else b.

(** [isinstance(v, str)], [isinstance(v, list)] and
    [isinstance(v, (str, int, float, bool))]. *)
Definition is_str (v : pyval) : bool :=
  match v with VStr _ => true | _ => false end.

Definition is_list (v : pyval) : bool :=
  match v with VList _ => true | _ => false end.

Definition is_scalar (v : pyval) : bool :=
  match v with
  | VStr _ | VInt _ | VFloat _ | VBool _ => true
  | _ => false
  end.

(** *** The builtin [str]

    Strings are sequences of code points below 256. [repr] of a string
    quotes it (double quotes when it holds a single quote and no double one)
    and escapes the quote, the backslash and what is not printable. *)
Definition squote : ascii := ascii_of_nat 39.
Definition dquote : ascii := ascii_of_nat 34.
Definition backslash : ascii := ascii_of_nat 92.

Definition hex_digit (n : nat) : ascii :=
  default "0"%char (String.list_ascii_of_string "0123456789abcdef" !! n).

Definition hex_escape (c : ascii) : string :=
  let n := nat_of_ascii c in
  String backslash (String "x" (String (hex_digit (n / 16)) (String (hex_digit (n mod 16)) ""))).

Fixpoint contains_char (c : ascii) (s : string) : bool :=
  match s with
  | EmptyString => false
  | String c' s' => Ascii.eqb c c' || contains_char c s'
  end.

Definition escape_char (quote c : ascii) : string :=
  let n := nat_of_ascii c in
  if Ascii.eqb c quote || Ascii.eqb c backslash then String backslash (String c "")
  else if (n =? 9)%nat then String backslash "t"
  else if (n =? 10)%nat then String backslash "n"
  else if (n =? 13)%nat then String backslash "r"
  else if (n <? 32)%nat || (n =? 127)%nat then hex_escape c
  else if (n <? 127)%nat then String c ""
  else if (n <=? 160)%nat || (n =? 173)%nat then hex_escape c
  else String c "".

Fixpoint escape_string (quote : ascii) (s : string) : string :=
  match s with
  | EmptyString => ""
  | String c s' => escape_char quote c +:+ escape_string quote s'
  end.

Definition py_repr_str (s : string) : string :=
  let quote :=
    if contains_char squote s && negb (contains_char dquote s) then dquote else squote in
  String quote (escape_string quote s +:+ String quote "").

(** [", ".join(parts)]. *)
Fixpoint join_comma (parts : list string) : string :=
  match parts with
  | [] => ""
  | [p] => p
  | p :: rest => p +:+ ", " +:+ join_comma rest
  end.

Fixpoint py_repr (v : pyval) : string :=
  match v with
  | VNone => "None"
  | VBool true => "True"
  | VBool false => "False"
  | VInt n => pretty n
  | VFloat r => r
  | VStr s => py_repr_str s
  | VList items => "[" +:+ join_comma (map py_repr items) +:+ "]"
  | VDict items =>
      "{" +:+ join_comma (map (fun kv => py_repr_str (fst kv) +:+ ": " +:+ py_repr (snd kv)) items)
          +:+ "}"
  end.

Definition py_str (v : pyval) : string :=
  match v with
  | VStr s => s
  | _ => py_repr v
  end.

(** ** Dictionaries in insertion order *)

(** [d[key]] read ([None]: the key is absent, where Python raises
    [KeyError]). *)
Fixpoint dict_lookup (key : string) (d : dict) : option pyval :=
  match d with
  | [] => None
  | (k, v) :: d' => if String.eqb key k then Some v else dict_lookup key d'
  end.

(** [d[key] = value]: an existing key keeps its place, a new one goes last. *)
Fixpoint dict_set (key : string) (value : pyval) (d : dict) : dict :=
  match d with
  | [] => [(key, value)]
  | (k, v) :: d' =>
      if String.eqb key k then (k, value) :: d' else (k, v) :: dict_set key value d'
  end.

(** ** [get_stock_info]: the record built from the provider's response *)

Definition not_available : pyval := VStr "Information not available".
Definition no_data : pyval := VStr "No data available".

(** [stock_info.get(key, default)]; [stock_info.get(key)] is
    [info_get stock_info key VNone]. *)
Definition info_get (stock_info : gmap string pyval) (key : string) (dflt : pyval) : pyval :=
  default dflt (stock_info !! key).

(** Lines 65-74: the [properties] literal. *)
Definition properties (stock_info : gmap string pyval) : dict :=
  [ ("Ticker", info_get stock_info "symbol" not_available);
    ("Name", info_get stock_info "longName" not_available);
    ("Business Summary", py_or (info_get stock_info "longBusinessSummary" VNone) no_data);
    ("City", info_get stock_info "city" not_available);
    ("State", info_get stock_info "state" not_available);
    ("Country", info_get stock_info "country" not_available);
    ("Industry", info_get stock_info "industry" not_available);
    ("Sector", info_get stock_info "sector" not_available) ].

(** The field names of the record and the provider attribute each is read
    from. *)
Definition field_names : list string :=
  [ "Ticker"; "Name"; "Business Summary"; "City"; "State"; "Country"; "Industry"; "Sector" ].

Definition defaulted_fields : list (string * string) :=
  [ ("Ticker", "symbol"); ("Name", "longName"); ("City", "city"); ("State", "state");
    ("Country", "country"); ("Industry", "industry"); ("Sector", "sector") ].

(** ** The normalization loop of [process_stock] (lines 88-94) *)

(** What one turn of the loop assigns to [stock_data[key]] ([None]: the
    turn assigns nothing). *)
Definition normalized (value : pyval) : option pyval :=
  match value with
  | VNone => Some no_data
  | VList items => Some (VList (map (fun item => VStr (py_str item)) items))
  | VDict _ => Some (VStr (py_str value))
  | VStr _ | VInt _ | VFloat _ | VBool _ => None
  end.

Definition normalize_value (value : pyval) : pyval :=
  default value (normalized value).

(** One turn, on the pair [items()] yields, and the whole loop. The keys of
    a [dict] are distinct, so the pair a turn receives still holds the
    value the record had at the start. *)
Definition normalize_turn (stock_data : dict) (kv : string * pyval) : dict :=
  match normalized (snd kv) with
  | Some value => dict_set (fst kv) value stock_data
  | None => stock_data
  end.

Definition normalize (stock_data : dict) : dict :=
  foldl normalize_turn stock_data stock_data.

(** ** Exceptions, documents and the state of the indexer *)

(** An exception, carried by [str(e)]. *)
Inductive exn : Type := Exception (message : string).

Definition exn_str (e : exn) : string :=
  match e with Exception message => message end.

Inductive result (A : Type) : Type :=
| Ok (a : A)
| Raise (e : exn).
Arguments Ok {A} a.
Arguments Raise {A} e.

(** A langchain [Document]: its [page_content] is a string. *)
Record Document : Type := {
  page_content : string;
  metadata : dict
}.

(** The calls the indexer makes to the outside. *)
Inductive call : Type :=
| CallInfo (symbol : string)
| CallAddDocuments (docs : list Document).

(** The module-level lists [successful_tickers] and [unsuccessful_tickers],
    the contents of the two ledger files, and the calls made so far. *)
Record state : Type := {
  successful_tickers : list string;
  unsuccessful_tickers : list string;
  successful_file : string;
  unsuccessful_file : string;
  calls : list call
}.

(** What lies outside the repository. Each answer may depend on the calls
    made before it.
    - [ticker_info]: [yf.Ticker(symbol).info], a mapping or an exception
      (an answer on which [.get] would raise counts as an exception);
    - [document_content]: what [Document(page_content=v)] makes of a [v]
      that is not a string (the library coerces it or refuses it);
    - [add_documents]: [vectorstore.add_documents(docs)]. *)
Record World : Type := {
  ticker_info : list call -> string -> result (gmap string pyval);
  document_content : pyval -> result string;
  add_documents : list call -> list Document -> result unit
}.

(** *** The state-and-exception monad

    A raised exception keeps the state reached so far. *)
Definition M (A : Type) : Type := state -> result A * state.

Definition ret {A : Type} (a : A) : M A := fun s => (Ok a, s).

Definition raise {A : Type} (e : exn) : M A := fun s => (Raise e, s).

Definition bind {A B : Type} (m : M A) (k : A -> M B) : M B :=
  fun s =>
    match m s with
    | (Ok a, s') => k a s'
    | (Raise e, s') => (Raise e, s')
    end.

Definition lift {A : Type} (r : result A) : M A := fun s => (r, s).

Definition gets {A : Type} (f : state -> A) : M A := fun s => (Ok (f s), s).

Definition modify (f : state -> state) : M unit := fun s => (Ok tt, f s).

(** [try: body except Exception as e: handler e]. *)
Definition try_except {A : Type} (body : M A) (handler : exn -> M A) : M A :=
  fun s =>
    match body s with
    | (Ok a, s') => (Ok a, s')
    | (Raise e, s') => handler e s'
    end.

Declare Scope py_scope.
Delimit Scope py_scope with py.
Notation "'let!' x ':=' m 'in' k" := (bind m (fun x => k))
  (at level 10, x name, m at level 100, k at level 200) : py_scope.
Notation "'do!' m 'then' k" := (bind m (fun _ => k))
  (at level 10, m at level 100, k at level 200) : py_scope.
Open Scope py_scope.

(** *** Updates of the state *)

Definition newline : string := String (ascii_of_nat 10) "".

Definition log_call (c : call) (s : state) : state :=
  {| successful_tickers := successful_tickers s;
     unsuccessful_tickers := unsuccessful_tickers s;
     successful_file := successful_file s;
     unsuccessful_file := unsuccessful_file s;
     calls := calls s ++ [c] |}.

(** [with open('successful_tickers.txt', 'a') as f: f.write(text)], and
    the same on [unsuccessful_tickers.txt]. An append to a ledger file is
    taken to succeed. *)
Definition write_successful_file (text : string) (s : state) : state :=
  {| successful_tickers := successful_tickers s;
     unsuccessful_tickers := unsuccessful_tickers s;
     successful_file := successful_file s +:+ text;
     unsuccessful_file := unsuccessful_file s;
     calls := calls s |}.

Definition write_unsuccessful_file (text : string) (s : state) : state :=
  {| successful_tickers := successful_tickers s;
     unsuccessful_tickers := unsuccessful_tickers s;
     successful_file := successful_file s;
     unsuccessful_file := unsuccessful_file s +:+ text;
     calls := calls s |}.

(** [successful_tickers.append(t)] and [unsuccessful_tickers.append(t)]. *)
Definition append_successful (t : string) (s : state) : state :=
  {| successful_tickers := successful_tickers s ++ [t];
     unsuccessful_tickers := unsuccessful_tickers s;
     successful_file := successful_file s;
     unsuccessful_file := unsuccessful_file s;
     calls := calls s |}.

Definition append_unsuccessful (t : string) (s : state) : state :=
  {| successful_tickers := successful_tickers s;
     unsuccessful_tickers := unsuccessful_tickers s ++ [t];
     successful_file := successful_file s;
     unsuccessful_file := unsuccessful_file s;
     calls := calls s |}.

(** ** [get_stock_info] and [process_stock] *)

Section Indexer.

Variable W : World.

(** Lines 62-75. *)
Definition get_stock_info (symbol : string) : M dict :=
  let! history := gets calls in
  do! modify (log_call (CallInfo symbol)) then
  let! stock_info := lift (ticker_info W history symbol) in
  ret (properties stock_info).

(** [stock_data[key]]: [KeyError(key)] when the key is absent. *)
Definition dict_getitem (d : dict) (key : string) : M pyval :=
  match dict_lookup key d with
  | Some v => ret v
  | None => raise (Exception (py_repr_str key))
  end.

(** [Document(page_content=content, metadata=md)]. *)
Definition new_Document (content : pyval) (md : dict) : M Document :=
  match content with
  | VStr text => ret {| page_content := text; metadata := md |}
  | _ =>
      let! text := lift (document_content W content) in
      ret {| page_content := text; metadata := md |}
  end.

(** [vectorstore.add_documents(docs)]. *)
Definition vectorstore_add_documents (docs : list Document) : M unit :=
  let! history := gets calls in
  do! modify (log_call (CallAddDocuments docs)) then
  lift (add_documents W history docs).

(** The body of the [try] statement, lines 82-105. *)
Definition attempt (stock_ticker : string) : M string :=
  let! stock_data := get_stock_info stock_ticker in
  let! summary := dict_getitem stock_data "Business Summary" in
  let stock_description :=
    if is_str summary then summary else VStr "No summary available" in
  let stock_data := normalize stock_data in
  let! doc := new_Document stock_description stock_data in
  do! vectorstore_add_documents [doc] then
  do! modify (write_successful_file (stock_ticker +:+ newline)) then
  do! modify (append_successful stock_ticker) then
  ret ("Processed " +:+ stock_ticker +:+ " successfully").

(** The [except Exception as e] clause, lines 107-112. *)
Definition record_failure (stock_ticker : string) (e : exn) : M string :=
  do! modify (write_unsuccessful_file (stock_ticker +:+ newline)) then
  do! modify (append_unsuccessful stock_ticker) then
  ret ("ERROR processing " +:+ stock_ticker +:+ ": " +:+ exn_str e).

(** The [try] statement as a whole, lines 81-112. *)
Definition try_statement (stock_ticker : string) : M string :=
  try_except (attempt stock_ticker) (record_failure stock_ticker).

(** Line 79: [stock_ticker in successful_tickers]. *)
Definition already_processed (stock_ticker : string) (s : state) : bool :=
  bool_decide (stock_ticker ∈ successful_tickers s).

(** Lines 78-112. *)
Definition process_stock (stock_ticker : string) : M string :=
  fun s =>
    if already_processed stock_ticker s
    then ret ("Already processed " +:+ stock_ticker) s
    else try_statement stock_ticker s.

End Indexer.

(** ** [parallel_process_stocks]: the worker pool and the collecting loop

    [ThreadPoolExecutor] keeps the submitted work items in a first-in
    first-out queue; each of at most [max_workers] worker threads takes the
    next item and runs it. [shutdown(wait=False)] without [cancel_futures]
    cancels nothing: it returns at once, and as the library's documentation
    has it, the program does not exit until all pending futures are done
    executing. Leaving the [with] block (normally or by [SystemExit]) calls
    [shutdown(wait=True)], which joins the workers, and a worker returns
    only once the queue is empty.

    A task touches the shared state at two moments: the membership test of
    line 79 when a worker takes the item, and the [try] statement later. *)

(** What [future.result()] gives: the string returned or the exception
    raised by the task. *)
Abbreviation outcome := (result string).

(** The main thread: in the [as_completed] loop; past [raise SystemExit(1)],
    leaving the [with] block; returned from [parallel_process_stocks]; the
    process gone with an exit status; [ThreadPoolExecutor] refused
    [max_workers]. *)
Inductive driver : Type :=
| Collecting
| Aborting
| Returned
| Exited (status : Z)
| Failed (e : exn).

Record config : Type := {
  mem : state;
  queue : list string;
  running : list string;
  finished : list (string * outcome);
  collected : list (string * outcome);
  main : driver
}.

(** [result.startswith("ERROR")], and an outcome that stops the program:
    an error string (line 127) or an exception out of the task (line 131). *)
Fixpoint startswith (s prefix : string) {struct prefix} : bool :=
  match prefix with
  | EmptyString => true
  | String p prefix' =>
      match s with
      | EmptyString => false
      | String c s' => Ascii.eqb c p && startswith s' prefix'
      end
  end.

Definition stops (o : outcome) : bool :=
  match o with
  | Ok r => startswith r "ERROR"
  | Raise _ => true
  end.

Inductive action : Type :=
| WorkerStart
| WorkerFinish (i : nat)
| Collect (j : nat)
| Leave.

Definition alive (d : driver) : bool :=
  match d with
  | Collecting | Aborting => true
  | _ => false
  end.

Definition is_nil {A : Type} (l : list A) : bool :=
  match l with [] => true | _ => false end.

Section Pool.

Variable W : World.
Variable max_workers : Z.

(** A worker takes the next item of the queue and runs line 79 of it. *)
Definition worker_start (c : config) : option config :=
  match queue c with
  | [] => None
  | t :: q =>
      if negb (alive (main c)) then None
      else if negb (Z.of_nat (length (running c)) <? max_workers) then None
      else if already_processed t (mem c)
      then Some {| mem := mem c; queue := q; running := running c;
                   finished := finished c ++ [(t, Ok ("Already processed " +:+ t))];
                   collected := collected c; main := main c |}
      else Some {| mem := mem c; queue := q; running := running c ++ [t];
                   finished := finished c; collected := collected c; main := main c |}
  end.

(** The [i]-th task in flight runs its [try] statement and completes. *)
Definition worker_finish (i : nat) (c : config) : option config :=
  match running c !! i with
  | None => None
  | Some t =>
      if negb (alive (main c)) then None
      else
        let (r, s') := try_statement W t (mem c) in
        Some {| mem := s'; queue := queue c; running := delete i (running c);
                finished := finished c ++ [(t, r)];
                collected := collected c; main := main c |}
  end.

(** One turn of the [as_completed] loop (lines 122-135) on a completed
    future: [shutdown(wait=False)] and [raise SystemExit(1)] on an outcome
    that stops the program. *)
Definition collect (j : nat) (c : config) : option config :=
  match main c, finished c !! j with
  | Collecting, Some (t, o) =>
      Some {| mem := mem c; queue := queue c; running := running c;
              finished := delete j (finished c);
              collected := collected c ++ [(t, o)];
              main := if stops o then Aborting else Collecting |}
  | _, _ => None
  end.

(** Leaving the [with] block: every future was yielded and the function
    returns, or [SystemExit(1)] ends the process once the workers are
    joined. *)
Definition leave (c : config) : option config :=
  let ended (d : driver) :=
    Some {| mem := mem c; queue := queue c; running := running c;
            finished := finished c; collected := collected c; main := d |} in
  match main c with
  | Collecting =>
      if is_nil (queue c) && is_nil (running c) && is_nil (finished c)
      then ended Returned else None
  | Aborting =>
      if is_nil (queue c) && is_nil (running c) then ended (Exited 1) else None
  | _ => None
  end.

Definition step (a : action) (c : config) : option config :=
  match a with
  | WorkerStart => worker_start c
  | WorkerFinish i => worker_finish i c
  | Collect j => collect j c
  | Leave => leave c
  end.

(** A schedule: the actions taken, in order. *)
Fixpoint run (schedule : list action) (c : config) : option config :=
  match schedule with
  | [] => Some c
  | a :: rest =>
      match step a c with
      | Some c' => run rest c'
      | None => None
      end
  end.

Definition reaches (c c' : config) : Prop :=
  exists schedule, run schedule c = Some c'.

(** Lines 116-120: the executor is created and every ticker submitted. *)
Definition parallel_process_stocks (tickers : list string) (s : state) : config :=
  if max_workers <=? 0
  then {| mem := s; queue := []; running := []; finished := []; collected := [];
          main := Failed (Exception "max_workers must be greater than 0") |}
  else {| mem := s; queue := tickers; running := []; finished := []; collected := [];
          main := Collecting |}.

(** The schedule that runs the tasks one after the other, each collected
    as soon as it is done. *)
Definition next_action (c : config) : action :=
  match main c, finished c, running c, queue c with
  | Collecting, _ :: _, _, _ => Collect 0
  | _, _, _ :: _, _ => WorkerFinish 0
  | _, _, [], _ :: _ => WorkerStart
  | _, _, [], [] => Leave
  end.

Fixpoint run_in_order (fuel : nat) (c : config) : config :=
  match fuel with
  | O => c
  | S fuel' =>
      match step (next_action c) c with
      | Some c' => run_in_order fuel' c'
      | None => c
      end
  end.

(** What is left to do in a configuration. *)
Definition work_left (c : config) : nat :=
  3 * length (queue c) + 2 * length (running c) + length (finished c)
  + (if alive (main c) then 1 else 0).

End Pool.

(** ** The query service ([main.py]) *)

Module SearchRequest.
Record t : Type := { query : string; k : Z }.
End SearchRequest.

Module SearchResult.
Record t : Type := { text : string; metadata : dict }.
End SearchResult.

Module SearchResponse.
Record t : Type := { query : string; results : list SearchResult.t }.
End SearchResponse.

(** The gateway: [vectorstore.similarity_search(query, k=k)], whose answer
    may depend on the searches made before. *)
Record Gateway : Type := {
  similarity_search : list (string * Z) -> string -> Z -> result (list Document)
}.

(** What the handler gives back: the response, or [HTTPException]. *)
Inductive reply : Type :=
| Response (body : SearchResponse.t)
| HTTPException (status_code : Z) (detail : string).

(** Lines 108-119. The second component is the list of gateway searches
    made so far. *)
Definition research (G : Gateway) (search : SearchRequest.t) (searches : list (string * Z))
  : reply * list (string * Z) :=
  if negb (truthy (VStr (SearchRequest.query search)))
  then (HTTPException 400 "Query parameter is required.", searches)
  else
    let searches' := searches ++ [(SearchRequest.query search, SearchRequest.k search)] in
    match similarity_search G searches (SearchRequest.query search) (SearchRequest.k search) with
    | Ok results =>
        let json_results :=
          map (fun r => {| SearchResult.text := page_content r;
                           SearchResult.metadata := metadata r |}) results in
        (Response {| SearchResponse.query := SearchRequest.query search;
                     SearchResponse.results := json_results |}, searches')
    | Raise _ => (HTTPException 500 "Internal Server Error", searches')
    end.

(** A gateway that holds one ranked sequence of matches and answers every
    search with its [k] best. *)
Definition ranked_gateway (ranked : list Document) : Gateway :=
  {| similarity_search := fun _ _ k => Ok (take (Z.to_nat k) ranked) |}.

(** ** Predicates and values the statements use *)

(** A list all of whose items are strings. *)
Definition is_str_list (v : pyval) : bool :=
  match v with
  | VList items => forallb is_str items
  | _ => false
  end.

(** What the normalization loop leaves in the record: a string, an int, a
    float, a bool, or a list of strings. *)
Definition storable (v : pyval) : bool := is_scalar v || is_str_list v.

(** The summary field of the record [get_stock_info] builds. *)
Definition business_summary (stock_info : gmap string pyval) : pyval :=
  py_or (info_get stock_info "longBusinessSummary" VNone) no_data.

(** The document [process_stock] builds from a provider response. *)
Definition indexed_document (stock_info : gmap string pyval) : Document :=
  {| page_content :=
       match business_summary stock_info with
       | VStr text => text
       | _ => "No summary available"
       end;
     metadata := normalize (properties stock_info) |}.

(** Two states that differ at most in the unsuccessful ledger (the list
    and the file). *)
Definition same_but_unsuccessful (s1 s2 : state) : Prop :=
  successful_tickers s1 = successful_tickers s2
  /\ successful_file s1 = successful_file s2
  /\ calls s1 = calls s2.

(** The state after the provider call, and after the vector-store call
    that follows it. *)
Definition fetched (t : string) (s : state) : state := log_call (CallInfo t) s.

Definition stored (t : string) (stock_info : gmap string pyval) (s : state) : state :=
  log_call (CallAddDocuments [indexed_document stock_info]) (fetched t s).

(** *** Sample inputs *)

Definition no_ledger : state :=
  {| successful_tickers := []; unsuccessful_tickers := [];
     successful_file := ""; unsuccessful_file := ""; calls := [] |}.

(** A ledger as [load_tickers] finds it after a run that indexed [XOM] and
    failed on [ZZZZ]. *)
Definition resumed_ledger : state :=
  {| successful_tickers := ["XOM"]; unsuccessful_tickers := ["ZZZZ"];
     successful_file := "XOM" +:+ newline; unsuccessful_file := "ZZZZ" +:+ newline;
     calls := [] |}.

Definition xom_info : gmap string pyval :=
  {[ "symbol" := VStr "XOM";
     "longName" := VStr "Exxon Mobil Corporation";
     "longBusinessSummary" := VStr "Exxon Mobil Corporation explores for crude oil.";
     "city" := VStr "Spring";
     "state" := VStr "TX";
     "country" := VStr "United States";
     "industry" := VStr "Oil & Gas Integrated";
     "fullTimeEmployees" := VInt 61500 ]}.

(** A response with a list where the city is expected, a number in place of
    the summary and a null state. *)
Definition odd_info : gmap string pyval :=
  {[ "symbol" := VStr "ODD";
     "longBusinessSummary" := VInt 7;
     "city" := VList [VStr "Houston"; VStr "Irving"];
     "state" := VNone ]}.

(** A provider that knows [XOM] and [ODD] and raises on anything else; a
    vector store that accepts every write. *)
Definition sample_world : World :=
  {| ticker_info := fun _ symbol =>
       if String.eqb symbol "XOM" then Ok xom_info
       else if String.eqb symbol "ODD" then Ok odd_info
       else Raise (Exception "No data found, symbol may be delisted");
     document_content := fun _ => Raise (Exception "str type expected");
     add_documents := fun _ _ => Ok tt |}.

(** A run of the pool with one worker over [ZZZZ] (unknown to the provider)
    and [XOM]: the first task fails and its outcome is collected, which
    starts the abort while [XOM] is still in the queue; then the run goes on
    to its end. *)
Definition sample_start : config :=
  parallel_process_stocks 1 ["ZZZZ"; "XOM"] no_ledger.

Definition sample_aborting : config :=
  default sample_start
    (run sample_world 1 [WorkerStart; WorkerFinish 0; Collect 0] sample_start).

Definition sample_exited : config :=
  default sample_aborting
    (run sample_world 1 [WorkerStart; WorkerFinish 0; Leave] sample_aborting).

(** Five ranked matches, and a gateway that ignores [k]. *)
Definition five_matches : list Document :=
  [ {| page_content := "Exxon Mobil explores for crude oil."; metadata := [("Ticker", VStr "XOM")] |};
    {| page_content := "Chevron is an integrated energy company."; metadata := [("Ticker", VStr "CVX")] |};
    {| page_content := "ConocoPhillips produces oil and gas."; metadata := [("Ticker", VStr "COP")] |};
    {| page_content := "Occidental Petroleum acquires oil properties."; metadata := [("Ticker", VStr "OXY")] |};
    {| page_content := "Marathon Oil is an exploration company."; metadata := [("Ticker", VStr "MRO")] |} ].

(** *** Invariants of the worker pool *)

Definition stopping (p : string * outcome) : Prop := stops p.2 = true.
Definition harmless (p : string * outcome) : Prop := stops p.2 = false.

(** How the main thread stands to the outcomes it has collected. *)
Definition driver_inv (c : config) : Prop :=
  match main c with
  | Collecting => Forall harmless (collected c)
  | Aborting => Exists stopping (collected c)
  | Returned =>
      Forall harmless (collected c) /\ queue c = [] /\ running c = [] /\ finished c = []
  | Exited status =>
      status = 1 /\ Exists stopping (collected c) /\ queue c = [] /\ running c = []
  | Failed _ => False
  end.

(** The tickers submitted are those queued, in flight or done. *)
Definition accounted (tickers : list string) (c : config) : Prop :=
  tickers ≡ₚ (collected c).*1 ++ (finished c).*1 ++ running c ++ queue c.

(** Every task that is done has its ticker in one of the two ledgers. *)
Definition in_a_ledger (s : state) (t : string) : Prop :=
  t ∈ successful_tickers s \/ t ∈ unsuccessful_tickers s.

Definition ledgered (c : config) : Prop :=
  Forall (fun p => in_a_ledger (mem c) p.1) (collected c ++ finished c).

(** A run over tickers that are all in the successful ledger of [s]. *)
Definition all_skipped (s : state) (c : config) : Prop :=
  mem c = s
  /\ running c = []
  /\ Forall (fun t => t ∈ successful_tickers s) (queue c)
  /\ Forall harmless (finished c)
  /\ Forall harmless (collected c).

(** ** [load_tickers] and the ledgers at startup

    A ledger file is its text, or [None] when the file does not exist. A
    file opened in text mode is read with universal newlines: a carriage
    return, alone or followed by a line feed, reads as a line feed.
    Iterating over the file gives its lines, each with its line feed. *)

Definition LF : ascii := ascii_of_nat 10.
Definition CR : ascii := ascii_of_nat 13.

(** [c.isspace()] on a code point below 256. *)
Definition py_isspace (c : ascii) : bool :=
  let n := nat_of_ascii c in
  (9 <=? n)%nat && (n <=? 13)%nat || (28 <=? n)%nat && (n <=? 32)%nat
  || (n =? 133)%nat || (n =? 160)%nat.

(** [s.lstrip()], [s.rstrip()] and [s.strip()]. *)
Fixpoint lstrip (s : string) : string :=
  match s with
  | EmptyString => ""
  | String c s' => if py_isspace c then lstrip s' else s
  end.

Fixpoint rstrip (s : string) : string :=
  match s with
  | EmptyString => ""
  | String c s' =>
      match rstrip s' with
      | EmptyString => if py_isspace c then "" else String c ""
      | r => String c r
      end
  end.

Definition strip (s : string) : string := lstrip (rstrip s).

(** The text a file opened with [open(path, 'r')] gives for the characters
    stored: [after_cr] says that the character before was a carriage
    return. *)
Fixpoint universal_newlines (after_cr : bool) (s : string) : string :=
  match s with
  | EmptyString => ""
  | String c s' =>
      if Ascii.eqb c CR then String LF (universal_newlines true s')
      else if Ascii.eqb c LF
      then (if after_cr then universal_newlines false s'
            else String LF (universal_newlines false s'))
      else String c (universal_newlines false s')
  end.

(** [for line in f]: the lines of a text, each up to and with its line
    feed; the last one may have none. *)
Fixpoint readlines (text : string) : list string :=
  match text with
  | EmptyString => []
  | String c text' =>
      if Ascii.eqb c LF then String LF "" :: readlines text'
      else match readlines text' with
           | [] => [String c ""]
           | line :: rest => String c line :: rest
           end
  end.

(** Lines 50-55. [None] is the file that does not exist, on which [open]
    raises [FileNotFoundError]. *)
Definition load_tickers (file : option string) : list string :=
  match file with
  | None => []
  | Some content =>
      let f := readlines (universal_newlines false content) in
      List.map strip (List.filter (fun line => truthy (VStr (strip line))) f)
  end.


(** The text [process_stock] appends to a ledger file for the tickers
    [ts], one after the other. *)
Fixpoint lines_text (ts : list string) : string :=
  match ts with
  | [] => ""
  | t :: ts' => t +:+ newline +:+ lines_text ts'
  end.

(** A ticker that a ledger file gives back as it was written: not empty,
    no white space at either end, no line break inside. *)
Definition is_token (t : string) : bool :=
  negb (String.eqb t "") && String.eqb (lstrip t) t && String.eqb (rstrip t) t
  && negb (contains_char LF t) && negb (contains_char CR t).

(** A text that is empty or ends with a line feed. *)
Definition terminated (text : string) : Prop :=
  text = "" \/ exists body, text = body +:+ newline.

(** *** What a run adds to the state

    [effect s0 s ds du dc]: from [s0] to [s] the successful ledger grew by
    the tickers [ds], list and file alike, the unsuccessful one by [du],
    and the calls [dc] were made. *)
Definition effect (s0 s : state) (ds du : list string) (dc : list call) : Prop :=
  successful_tickers s = successful_tickers s0 ++ ds
  /\ successful_file s = successful_file s0 +:+ lines_text ds
  /\ unsuccessful_tickers s = unsuccessful_tickers s0 ++ du
  /\ unsuccessful_file s = unsuccessful_file s0 +:+ lines_text du
  /\ calls s = calls s0 ++ dc.

(** The provider call for [symbol] is not among the calls [dc]. *)
Definition never_fetched (symbol : string) (dc : list call) : Prop :=
  CallInfo symbol ∉ dc.

(** The pool, run from the state [s0] over [tickers]: what the tasks done
    so far added, and what the tasks still to run are. *)
Definition pool_effect (s0 : state) (tickers : list string) (c : config) : Prop :=
  exists ds du dc,
    effect s0 (mem c) ds du dc
    /\ Forall (fun t => t ∈ tickers) (ds ++ du)
    /\ Forall (fun t => t ∈ tickers) (running c ++ queue c)
    /\ Forall (fun t => t ∉ successful_tickers s0) (running c)
    /\ Forall (fun t => never_fetched t dc) (successful_tickers s0).

(** No ticker is queued or in flight twice, none in flight is in the
    successful list, and the successful list has no repeats. *)
Definition once (c : config) : Prop :=
  NoDup (running c ++ queue c)
  /\ Forall (fun t => t ∉ successful_tickers (mem c)) (running c)
  /\ NoDup (successful_tickers (mem c)).

(** ** [get_company_tickers] and the main block (lines 138-157)

    The answer to [requests.get(url)] is a status code and what
    [json.loads(response.content.decode('utf-8'))] gives for the body: a
    value or an exception. What the module prints and the catalog it saves
    in [company_tickers.json] are part of the result. *)
Record http_response : Type := {
  status_code : Z;
  body_json : result pyval
}.

Record catalog_fetch : Type := {
  returned : result pyval;
  saved : option pyval;
  printed : list string
}.

(** Lines 138-149. [requests.get] may raise; a status other than 200 gives
    [None]. *)
Definition get_company_tickers (answer : result http_response) : catalog_fetch :=
  match answer with
  | Raise e => {| returned := Raise e; saved := None; printed := [] |}
  | Ok response =>
      if status_code response =? 200
      then match body_json response with
           | Ok company_tickers =>
               {| returned := Ok company_tickers;
                  saved := Some company_tickers;
                  printed :=
                    ["File downloaded successfully and saved as 'company_tickers.json'"] |}
           | Raise e => {| returned := Raise e; saved := None; printed := [] |}
           end
      else {| returned := Ok VNone; saved := None;
              printed := ["Failed to download file. Status code: "
                          +:+ pretty (status_code response)] |}
  end.

(** [type(v).__name__]. *)
Definition type_name (v : pyval) : string :=
  match v with
  | VNone => "NoneType"
  | VBool _ => "bool"
  | VInt _ => "int"
  | VFloat _ => "float"
  | VStr _ => "str"
  | VList _ => "list"
  | VDict _ => "dict"
  end.

(** [len(v)]. *)
Definition py_len (v : pyval) : result Z :=
  match v with
  | VStr s => Ok (Z.of_nat (String.length s))
  | VList items => Ok (Z.of_nat (length items))
  | VDict items => Ok (Z.of_nat (length items))
  | _ => Raise (Exception ("object of type '" +:+ type_name v +:+ "' has no len()"))
  end.

(** [v.values()]. *)
Definition py_values (v : pyval) : result (list pyval) :=
  match v with
  | VDict items => Ok (items.*2)
  | _ => Raise (Exception ("'" +:+ type_name v +:+ "' object has no attribute 'values'"))
  end.

Section MainBlock.

(** The [TypeError] that [stock['ticker']] raises on a [stock] that is no
    [dict]. *)
Variable not_subscriptable : pyval -> exn.

(** [stock['ticker']]. *)
Definition ticker_of (stock : pyval) : result pyval :=
  match stock with
  | VDict fields =>
      match dict_lookup "ticker" fields with
      | Some ticker => Ok ticker
      | None => Raise (Exception (py_repr_str "ticker"))
      end
  | _ => Raise (not_subscriptable stock)
  end.

(** [[stock['ticker'] for stock in stocks]]: the first record that raises
    ends the comprehension. *)
Fixpoint tickers_of (stocks : list pyval) : result (list pyval) :=
  match stocks with
  | [] => Ok []
  | stock :: rest =>
      match ticker_of stock with
      | Raise e => Raise e
      | Ok ticker =>
          match tickers_of rest with
          | Raise e => Raise e
          | Ok tickers => Ok (ticker :: tickers)
          end
      end
  end.

(** How the main block ends: nothing was handed to the pool; an exception
    left the block; [parallel_process_stocks(tickers, max_workers=10)] was
    called. *)
Inductive main_outcome : Type :=
| NothingToDo
| Crash (e : exn)
| Start (tickers : list pyval).

Record main_run : Type := {
  outcome_of : main_outcome;
  catalog_saved : option pyval;
  main_printed : list string
}.

(** Lines 152-157. *)
Definition main_block (answer : result http_response) : main_run :=
  let fetch := get_company_tickers answer in
  let ended (o : main_outcome) (more : list string) :=
    {| outcome_of := o; catalog_saved := saved fetch;
       main_printed := printed fetch ++ more |} in
  match returned fetch with
  | Raise e => ended (Crash e) []
  | Ok company_tickers =>
      if truthy company_tickers
      then match py_len company_tickers with
           | Raise e => ended (Crash e) []
           | Ok n =>
               let line := "Number of tickers to process: " +:+ pretty n in
               match py_values company_tickers with
               | Raise e => ended (Crash e) [line]
               | Ok stocks =>
                   match tickers_of stocks with
                   | Raise e => ended (Crash e) [line]
                   | Ok tickers => ended (Start tickers) [line]
                   end
               end
           end
      else ended NothingToDo []
  end.

End MainBlock.

(** The record of a catalog has the ticker [t]. *)
Definition has_ticker (stock t : pyval) : Prop :=
  exists fields, stock = VDict fields /\ dict_lookup "ticker" fields = Some t.

(** *** Sample inputs of the main block *)

Definition sample_catalog : pyval :=
  VDict [ ("0", VDict [("cik_str", VInt 320193); ("ticker", VStr "AAPL");
                       ("title", VStr "Apple Inc.")]);
          ("1", VDict [("cik_str", VInt 789019); ("ticker", VStr "MSFT");
                       ("title", VStr "MICROSOFT CORP")]) ].

Definition sample_subscript_error (v : pyval) : exn :=
  Exception ("'" +:+ type_name v +:+ "' object is not subscriptable").

(** A run of the pool with two workers after a restart on the ledgers of
    [resumed_ledger], over [XOM] (in the successful ledger) and [ODD]. *)
Definition resumed_start : config :=
  parallel_process_stocks 2 ["XOM"; "ODD"] resumed_ledger.

Definition resumed_end : config :=
  default resumed_start
    (run sample_world 2
       [WorkerStart; WorkerStart; WorkerFinish 0; Collect 0; Collect 0; Leave]
       resumed_start).

(** Case analysis on one action of the pool: [H] states that the action
    was taken. *)
Ltac invert_step H :=
  unfold worker_start, worker_finish, collect, leave in H;
  repeat case_match; simplify_eq.

(** ** Facts about dictionaries and the normalization loop *)

Lemma dict_set_at (key : string) (value v : pyval) (pre suf : dict) :
  key ∉ pre.*1 ->
  dict_set key value (pre ++ (key, v) :: suf) = pre ++ (key, value) :: suf.
Proof.
  induction pre as [|[k w] pre IH]; intros Hfresh; simpl.
  - by rewrite String.eqb_refl.
  - apply not_elem_of_cons in Hfresh as [Hne Hfresh].
    destruct (String.eqb_spec key k) as [->|_]; [done|].
    by rewrite IH.
Qed.

Lemma dict_lookup_map (f : pyval -> pyval) (key : string) (d : dict) :
  dict_lookup key (map (fun kv => (kv.1, f kv.2)) d) = f <$> dict_lookup key d.
Proof.
  induction d as [|[k v] d IH]; simpl; [done|].
  by destruct (String.eqb key k).
Qed.

(** The loop, started on a record whose first entries [pre] were visited:
    it rewrites the entries still to visit, each in its place. *)
Lemma normalize_loop (suf pre : dict) :
  NoDup (pre ++ suf).*1 ->
  foldl normalize_turn (pre ++ suf) suf
  = pre ++ map (fun kv => (kv.1, normalize_value kv.2)) suf.
Proof.
  revert pre. induction suf as [|[k v] suf IH]; intros pre Hnd; simpl; [done|].
  assert (Hfresh : k ∉ pre.*1).
  { rewrite fmap_app in Hnd. apply NoDup_app in Hnd as (_ & Hdis & _).
    intros Hin. apply (Hdis k Hin). simpl. left. }
  assert (Hturn : normalize_turn (pre ++ (k, v) :: suf) (k, v)
                  = (pre ++ [(k, normalize_value v)]) ++ suf).
  { unfold normalize_turn, normalize_value. simpl.
    destruct (normalized v) as [v'|]; simpl.
    - rewrite dict_set_at by done. by rewrite <- app_assoc.
    - by rewrite <- app_assoc. }
  rewrite Hturn, IH.
  - by rewrite <- app_assoc.
  - rewrite <- app_assoc. simpl.
    rewrite fmap_app in *. simpl in *. done.
Qed.

Lemma normalize_map (stock_data : dict) :
  NoDup stock_data.*1 ->
  normalize stock_data = map (fun kv => (kv.1, normalize_value kv.2)) stock_data.
Proof.
  intros Hnd. unfold normalize. apply (normalize_loop stock_data []). done.
Qed.

Lemma normalize_value_storable (v : pyval) : storable (normalize_value v) = true.
Proof.
  destruct v as [ | b | n | r | s | items | items ]; try reflexivity.
  unfold normalize_value, storable. simpl.
  induction items as [|item items IH]; simpl; [done|]. exact IH.
Qed.

Lemma properties_keys (stock_info : gmap string pyval) :
  (properties stock_info).*1 = field_names.
Proof. reflexivity. Qed.

Lemma field_names_NoDup : NoDup field_names.
Proof. apply (bool_decide_unpack _). vm_compute. exact I. Qed.

Lemma normalize_properties (stock_info : gmap string pyval) :
  normalize (properties stock_info)
  = map (fun kv => (kv.1, normalize_value kv.2)) (properties stock_info).
Proof. apply normalize_map. rewrite properties_keys. apply field_names_NoDup. Qed.

(** ** Facts about [process_stock] *)

Section IndexerFacts.

Variable W : World.

(** The [try] body when the provider raises. *)
Lemma attempt_fetch_raises (t : string) (s : state) (e : exn) :
  ticker_info W (calls s) t = Raise e ->
  attempt W t s = (Raise e, fetched t s).
Proof.
  intros Hinfo. unfold attempt, get_stock_info, bind, gets, modify, lift. simpl.
  by rewrite Hinfo.
Qed.

(** The [try] body when the provider answers: the document is built
    without consulting [document_content], and the outcome is that of the
    vector-store write. *)
Lemma attempt_fetched (t : string) (s : state) (stock_info : gmap string pyval) :
  ticker_info W (calls s) t = Ok stock_info ->
  attempt W t s =
  match add_documents W (calls (fetched t s)) [indexed_document stock_info] with
  | Ok _ =>
      (Ok ("Processed " +:+ t +:+ " successfully"),
       append_successful t (write_successful_file (t +:+ newline) (stored t stock_info s)))
  | Raise e => (Raise e, stored t stock_info s)
  end.
Proof.
  intros Hinfo.
  unfold attempt, get_stock_info, vectorstore_add_documents, bind, gets, modify, lift, ret.
  simpl. rewrite Hinfo. simpl.
  unfold stored, fetched, indexed_document, business_summary.
  destruct (py_or (info_get stock_info "longBusinessSummary" VNone) no_data);
    simpl; by destruct (add_documents W _ _).
Qed.

(** An exception out of the [try] body leaves the ledgers as they were. *)
Lemma attempt_raise_ledgers (t : string) (s s' : state) (e : exn) :
  attempt W t s = (Raise e, s') ->
  successful_tickers s' = successful_tickers s
  /\ unsuccessful_tickers s' = unsuccessful_tickers s
  /\ successful_file s' = successful_file s
  /\ unsuccessful_file s' = unsuccessful_file s.
Proof.
  destruct (ticker_info W (calls s) t) as [stock_info|e'] eqn:Hinfo.
  - rewrite (attempt_fetched _ _ _ Hinfo).
    destruct (add_documents W _ _); [done|]. by intros [= _ <-].
  - rewrite (attempt_fetch_raises _ _ _ Hinfo). by intros [= _ <-].
Qed.

Lemma process_stock_new (t : string) (s : state) :
  t ∉ successful_tickers s ->
  process_stock W t s = try_statement W t s.
Proof.
  intros Hnew. unfold process_stock, already_processed.
  by rewrite bool_decide_eq_false_2.
Qed.

Lemma try_statement_raises (t : string) (s s1 : state) (e : exn) :
  attempt W t s = (Raise e, s1) ->
  try_statement W t s
  = (Ok ("ERROR processing " +:+ t +:+ ": " +:+ exn_str e),
     append_unsuccessful t (write_unsuccessful_file (t +:+ newline) s1)).
Proof. intros Hraise. unfold try_statement, try_except. by rewrite Hraise. Qed.

(** The calls of one [process_stock] on a ticker that is not in the
    successful ledger and for which the provider answers. *)
Lemma process_stock_calls (t : string) (s : state) (stock_info : gmap string pyval) :
  t ∉ successful_tickers s ->
  ticker_info W (calls s) t = Ok stock_info ->
  calls (process_stock W t s).2
  = calls s ++ [CallInfo t; CallAddDocuments [indexed_document stock_info]].
Proof.
  intros Hnew Hinfo. rewrite process_stock_new by done.
  unfold try_statement, try_except. rewrite (attempt_fetched _ _ _ Hinfo).
  destruct (add_documents W _ _); simpl; by rewrite <- app_assoc.
Qed.

(** The [try] statement appends the ticker to exactly one of the two
    lists and leaves the other as it was. *)
Lemma try_statement_ledgers (t : string) (s s' : state) (r : result string) :
  try_statement W t s = (r, s') ->
  (successful_tickers s' = successful_tickers s ++ [t]
   /\ unsuccessful_tickers s' = unsuccessful_tickers s)
  \/ (successful_tickers s' = successful_tickers s
      /\ unsuccessful_tickers s' = unsuccessful_tickers s ++ [t]).
Proof.
  unfold try_statement, try_except.
  destruct (attempt W t s) as [[r'|e] s1] eqn:Hattempt.
  - intros [= <- <-]. left.
    destruct (ticker_info W (calls s) t) as [stock_info|e] eqn:Hinfo.
    + rewrite (attempt_fetched _ _ _ Hinfo) in Hattempt.
      destruct (add_documents W _ _); by simplify_eq.
    + by rewrite (attempt_fetch_raises _ _ _ Hinfo) in Hattempt.
  - destruct (attempt_raise_ledgers _ _ _ _ Hattempt) as (Hst & Hut & _).
    intros [= <- <-]. right. simpl. by rewrite Hst, Hut.
Qed.

(** The handler catches every exception of the body: [process_stock]
    always returns a string. *)
Lemma process_stock_returns (t : string) (s : state) :
  exists r, (process_stock W t s).1 = Ok r.
Proof.
  unfold process_stock, ret. destruct (already_processed t s); [by eexists|].
  unfold try_statement, try_except.
  destruct (attempt W t s) as [[r|e] s']; by eexists.
Qed.

(** The path on which nothing raises: the ticker joins the successful
    ledger and the unsuccessful one is as it was. *)
Lemma process_stock_success (t : string) (s : state) (stock_info : gmap string pyval) :
  t ∉ successful_tickers s ->
  ticker_info W (calls s) t = Ok stock_info ->
  add_documents W (calls (fetched t s)) [indexed_document stock_info] = Ok tt ->
  process_stock W t s
  = (Ok ("Processed " +:+ t +:+ " successfully"),
     append_successful t (write_successful_file (t +:+ newline) (stored t stock_info s))).
Proof.
  intros Hnew Hinfo Hadd. rewrite process_stock_new by done.
  unfold try_statement, try_except.
  by rewrite (attempt_fetched _ _ _ Hinfo), Hadd.
Qed.

(** A ticker indexed once is skipped from then on. *)
Lemma process_stock_once (t : string) (s s' : state) :
  process_stock W t s = (Ok ("Processed " +:+ t +:+ " successfully"), s') ->
  t ∉ successful_tickers s ->
  process_stock W t s' = (Ok ("Already processed " +:+ t), s').
Proof.
  intros Hdone Hnew. rewrite process_stock_new in Hdone by done.
  unfold try_statement, try_except in Hdone.
  assert (Hin : t ∈ successful_tickers s').
  { destruct (ticker_info W (calls s) t) as [stock_info|e] eqn:Hinfo.
    - rewrite (attempt_fetched _ _ _ Hinfo) in Hdone.
      destruct (add_documents W _ _); simplify_eq; simpl.
      apply elem_of_app. right. apply list_elem_of_here.
    - rewrite (attempt_fetch_raises _ _ _ Hinfo) in Hdone. simplify_eq. }
  unfold process_stock, already_processed, ret.
  by rewrite bool_decide_eq_true_2.
Qed.

(** C7. For any provider response, [get_stock_info] returns a record with
    exactly the eight fields Ticker, Name, Business Summary, City, State,
    Country, Industry, Sector, in that order. A field other than the summary
    holds the provider's attribute when it is present and "Information not
    available" when it is missing; the summary holds "No data available"
    when its attribute is missing or None. *)
Theorem get_stock_info_fields (symbol : string) (s : state) (stock_info : gmap string pyval) :
  ticker_info W (calls s) symbol = Ok stock_info ->
  exists record,
    (get_stock_info W symbol s).1 = Ok record
    /\ record.*1 = field_names
    /\ (forall field attribute, (field, attribute) ∈ defaulted_fields ->
          stock_info !! attribute = None ->
          dict_lookup field record = Some (VStr "Information not available"))
    /\ (forall field attribute value, (field, attribute) ∈ defaulted_fields ->
          stock_info !! attribute = Some value ->
          dict_lookup field record = Some value)
    /\ (stock_info !! "longBusinessSummary" = None
         \/ stock_info !! "longBusinessSummary" = Some VNone ->
         dict_lookup "Business Summary" record = Some (VStr "No data available")).
Proof.
  intros Hinfo. exists (properties stock_info).
  split; [|split; [reflexivity|split; [|split]]].
  - unfold get_stock_info, bind, gets, modify, lift. simpl. by rewrite Hinfo.
  - intros field attribute Hin Hmiss. unfold defaulted_fields in Hin.
    repeat (apply elem_of_cons in Hin as [[= -> ->]|Hin];
            [simpl; unfold info_get; by rewrite Hmiss|]).
    by apply elem_of_nil in Hin.
  - intros field attribute value Hin Hsome. unfold defaulted_fields in Hin.
    repeat (apply elem_of_cons in Hin as [[= -> ->]|Hin];
            [simpl; unfold info_get; by rewrite Hsome|]).
    by apply elem_of_nil in Hin.
  - intros [Hmiss|Hnone]; simpl; unfold info_get; by rewrite ?Hmiss, ?Hnone.
Qed.

(** C2, as amended. The normalization loop is a total function of the
    record: it keeps the keys and their order, and every value it leaves is
    a string, an int, a float, a bool or a list of strings (a list value is
    kept as a list, its items stringified). *)
Theorem normalization_total (stock_data : dict) :
  NoDup stock_data.*1 ->
  (normalize stock_data).*1 = stock_data.*1
  /\ Forall (fun kv => storable kv.2 = true) (normalize stock_data)
  /\ (forall key value, dict_lookup key stock_data = Some value ->
        dict_lookup key (normalize stock_data) = Some (normalize_value value)).
Proof.
  intros Hnd. rewrite (normalize_map _ Hnd). split; [|split].
  - induction stock_data as [|[k v] d IH]; simpl; [done|].
    f_equal. apply IH. by apply NoDup_cons in Hnd as [_ ?].
  - apply Forall_forall. intros kv Hin.
    apply list_elem_of_fmap in Hin as (kv' & -> & _). simpl.
    apply normalize_value_storable.
  - intros key value Hlook. by rewrite dict_lookup_map, Hlook.
Qed.

(** C3. When the [try] body raises for a ticker that is not in the
    successful ledger, [process_stock] returns the error outcome
    "ERROR processing <ticker>: <message of the exception>", the
    unsuccessful file is longer by the ticker and a newline, the
    unsuccessful list by the ticker, and the successful ledger is as it
    was. *)
Theorem process_stock_records_failure (t : string) (s : state) (e : exn) :
  t ∉ successful_tickers s ->
  (attempt W t s).1 = Raise e ->
  exists s',
    process_stock W t s = (Ok ("ERROR processing " +:+ t +:+ ": " +:+ exn_str e), s')
    /\ stops (Ok ("ERROR processing " +:+ t +:+ ": " +:+ exn_str e)) = true
    /\ unsuccessful_file s' = unsuccessful_file s +:+ (t +:+ newline)
    /\ unsuccessful_tickers s' = unsuccessful_tickers s ++ [t]
    /\ successful_file s' = successful_file s
    /\ successful_tickers s' = successful_tickers s.
Proof.
  intros Hnew Hraise.
  destruct (attempt W t s) as [r s1] eqn:Hattempt. simpl in Hraise. subst r.
  destruct (attempt_raise_ledgers _ _ _ _ Hattempt) as (Hst & Hut & Hsf & Huf).
  eexists. split.
  - rewrite process_stock_new by done. by apply try_statement_raises.
  - simpl. rewrite Hst, Hut, Hsf, Huf. by repeat split.
Qed.

(** C6. Two states that differ only in the unsuccessful ledger give the
    same outcome of [process_stock], make the same calls and leave the same
    successful ledger; and a ticker that is not in the successful ledger is
    fetched from the provider whatever the unsuccessful ledger holds. *)
Theorem unsuccessful_ledger_not_consulted (t : string) (s1 s2 : state) :
  same_but_unsuccessful s1 s2 ->
  (process_stock W t s1).1 = (process_stock W t s2).1
  /\ same_but_unsuccessful (process_stock W t s1).2 (process_stock W t s2).2
  /\ (t ∉ successful_tickers s1 ->
       exists rest, calls (process_stock W t s2).2 = calls s2 ++ CallInfo t :: rest).
Proof.
  destruct s1 as [st1 ut1 sf1 uf1 c1], s2 as [st2 ut2 sf2 uf2 c2].
  intros (Hst & Hsf & Hc). simpl in *. subst st2 sf2 c2.
  unfold process_stock, already_processed, ret. simpl.
  case_bool_decide as Hin; simpl.
  { split; [done|]. split; [done|]. intros Hnew. by destruct Hnew. }
  unfold try_statement, try_except.
  destruct (ticker_info W c1 t) as [stock_info|e] eqn:Hinfo.
  - rewrite !(attempt_fetched _ _ stock_info) by done. simpl.
    destruct (add_documents W _ _); simpl;
      (split; [done|]; split; [done|]; intros _; eexists; by rewrite <- app_assoc).
  - rewrite !(attempt_fetch_raises _ _ e) by done. simpl.
    split; [done|]. split; [done|]. intros _. by eexists.
Qed.

(** C10. For a ticker that is not in the successful ledger and for which
    the provider answers, [process_stock] calls the provider once and then
    hands the vector store one document. Its text is the summary field when
    that is a string and "No summary available" otherwise; its metadata is
    the normalized record, whose summary entry is the normalized summary
    field. *)
Theorem document_text_is_a_string (t : string) (s : state) (stock_info : gmap string pyval) :
  t ∉ successful_tickers s ->
  ticker_info W (calls s) t = Ok stock_info ->
  exists doc,
    calls (process_stock W t s).2 = calls s ++ [CallInfo t; CallAddDocuments [doc]]
    /\ (is_str (business_summary stock_info) = false ->
         page_content doc = "No summary available")
    /\ (forall text, business_summary stock_info = VStr text -> page_content doc = text)
    /\ metadata doc = normalize (properties stock_info)
    /\ dict_lookup "Business Summary" (metadata doc)
        = Some (normalize_value (business_summary stock_info)).
Proof.
  intros Hnew Hinfo. exists (indexed_document stock_info).
  split; [by apply process_stock_calls|].
  unfold indexed_document. simpl. split; [|split; [|split]].
  - by destruct (business_summary stock_info).
  - by intros text ->.
  - done.
  - rewrite normalize_properties, dict_lookup_map. done.
Qed.

End IndexerFacts.

(** What [Document] would make of a text that is not a string never
    matters: the guard of lines 84-85 keeps such a text away from it. *)
Lemma document_content_unused (W W' : World) (t : string) (s : state) :
  ticker_info W = ticker_info W' ->
  add_documents W = add_documents W' ->
  process_stock W t s = process_stock W' t s.
Proof.
  intros Hinfo Hadd. unfold process_stock.
  destruct (already_processed t s); [done|].
  unfold try_statement, try_except.
  destruct (ticker_info W (calls s) t) as [stock_info|e] eqn:Hanswer.
  - rewrite (attempt_fetched W _ _ stock_info Hanswer).
    rewrite Hinfo in Hanswer. rewrite (attempt_fetched W' _ _ stock_info Hanswer).
    by rewrite Hadd.
  - rewrite (attempt_fetch_raises W _ _ e Hanswer).
    rewrite Hinfo in Hanswer. by rewrite (attempt_fetch_raises W' _ _ e Hanswer).
Qed.

(** ** Facts about the worker pool *)

Section PoolFacts.

Variable W : World.
Variable max_workers : Z.

(** A worker that takes a ticker and runs it with no other thread in
    between runs [process_stock] on it. *)
Lemma worker_runs_process_stock (t : string) (q : list string) (c : config) :
  queue c = t :: q ->
  alive (main c) = true ->
  Z.of_nat (length (running c)) < max_workers ->
  exists schedule c',
    run W max_workers schedule c = Some c'
    /\ mem c' = (process_stock W t (mem c)).2
    /\ finished c' = finished c ++ [(t, (process_stock W t (mem c)).1)]
    /\ queue c' = q /\ running c' = running c
    /\ collected c' = collected c /\ main c' = main c.
Proof.
  intros Hq Halive Hfree. apply Z.ltb_lt in Hfree.
  unfold process_stock, ret.
  destruct (already_processed t (mem c)) eqn:Hskip.
  - exists [WorkerStart]. eexists. simpl. unfold worker_start.
    rewrite Hq, Halive, Hfree, Hskip. simpl. by repeat split.
  - destruct (try_statement W t (mem c)) as [r s'] eqn:Htry.
    exists [WorkerStart; WorkerFinish (length (running c))]. eexists.
    simpl. unfold worker_start. rewrite Hq, Halive, Hfree, Hskip. simpl.
    unfold worker_finish. simpl.
    rewrite lookup_app_r, Nat.sub_diag by lia. simpl.
    rewrite Halive, Htry. simpl. repeat split; try done.
    rewrite delete_middle. by rewrite app_nil_r.
Qed.

Lemma step_driver_inv (a : action) (c c' : config) :
  driver_inv c -> step W max_workers a c = Some c' -> driver_inv c'.
Proof.
  unfold driver_inv. intros Hinv Hstep.
  destruct a; simpl in Hstep; invert_step Hstep; simpl in *;
    repeat match goal with H : main _ = _ |- _ => rewrite H in * end;
    simpl in *; try done.
  - apply Exists_app. right. by apply Exists_cons_hd.
  - apply Forall_app. split; [done|]. by apply Forall_singleton.
  - destruct (queue c), (running c), (finished c); naive_solver.
  - destruct (queue c), (running c); naive_solver.
Qed.

Lemma run_driver_inv (schedule : list action) (c c' : config) :
  driver_inv c -> run W max_workers schedule c = Some c' -> driver_inv c'.
Proof.
  revert c. induction schedule as [|a schedule IH]; intros c Hinv Hrun; simpl in Hrun.
  - by simplify_eq.
  - destruct (step W max_workers a c) as [c1|] eqn:Hstep; [|done].
    eapply IH; [|done]. by eapply step_driver_inv.
Qed.

Lemma start_driver_inv (tickers : list string) (s : state) :
  0 < max_workers -> driver_inv (parallel_process_stocks max_workers tickers s).
Proof.
  intros Hpos. unfold parallel_process_stocks, driver_inv.
  destruct (Z.leb_spec max_workers 0); [lia|]. simpl. constructor.
Qed.

(** Every action leaves less to do. *)
Lemma step_work_left (a : action) (c c' : config) :
  step W max_workers a c = Some c' -> (work_left c' < work_left c)%nat.
Proof.
  intros Hstep. unfold work_left.
  destruct a; simpl in Hstep; invert_step Hstep; simpl;
    repeat match goal with H : main _ = _ |- _ => rewrite H in * end;
    simpl in *; rewrite ?length_app, ?length_delete by eauto; simpl;
    try match goal with H : _ !! _ = Some _ |- _ => apply lookup_lt_Some in H end;
    try (destruct (alive (main c))); try lia.
Qed.

Lemma run_work_left (schedule : list action) (c c' : config) :
  run W max_workers schedule c = Some c' ->
  (length schedule + work_left c' <= work_left c)%nat.
Proof.
  revert c. induction schedule as [|a schedule IH]; intros c Hrun; simpl in Hrun.
  - simplify_eq. simpl. lia.
  - destruct (step W max_workers a c) as [c1|] eqn:Hstep; [|done].
    apply IH in Hrun. apply step_work_left in Hstep. simpl. lia.
Qed.

Lemma reaches_refl (c : config) : reaches W max_workers c c.
Proof. by exists []. Qed.

Lemma reaches_step (a : action) (c c1 c' : config) :
  step W max_workers a c = Some c1 ->
  reaches W max_workers c1 c' -> reaches W max_workers c c'.
Proof. intros Hstep [schedule Hrun]. exists (a :: schedule). simpl. by rewrite Hstep. Qed.

(** Nothing moves once the main thread has ended. *)
Lemma step_alive (a : action) (c c' : config) :
  step W max_workers a c = Some c' -> alive (main c) = true.
Proof.
  intros Hstep.
  destruct a; simpl in Hstep; unfold worker_start, worker_finish, collect, leave in Hstep;
    destruct (main c); simpl in *; try done; repeat case_match; done.
Qed.

(** A configuration whose main thread has not ended can move: no deadlock. *)
Lemma progress (c : config) :
  0 < max_workers -> alive (main c) = true ->
  exists c', step W max_workers (next_action c) c = Some c'.
Proof.
  intros Hpos Halive. unfold next_action.
  assert (Hfree : (Z.of_nat 0 <? max_workers) = true) by (apply Z.ltb_lt; lia).
  destruct (main c) eqn:Hmain; try done;
    destruct (finished c) as [|[t o] fin] eqn:Hfin;
    destruct (running c) as [|t' rest] eqn:Hrun;
    destruct (queue c) as [|t'' q] eqn:Hq; simpl;
    unfold worker_start, worker_finish, collect, leave;
    rewrite ?Hmain, ?Hfin, ?Hrun, ?Hq; simpl;
    try (destruct (try_statement W _ (mem c)));
    rewrite ?Hfree; simpl;
    try (destruct (already_processed _ (mem c))); eauto.
Qed.

(** The in-order schedule ends the run within [work_left] actions. *)
Lemma run_in_order_ends (fuel : nat) (c : config) :
  0 < max_workers -> (work_left c <= fuel)%nat ->
  reaches W max_workers c (run_in_order W max_workers fuel c)
  /\ alive (main (run_in_order W max_workers fuel c)) = false.
Proof.
  intros Hpos. revert c. induction fuel as [|fuel IH]; intros c Hfuel; simpl.
  - split; [apply reaches_refl|].
    unfold work_left in Hfuel. destruct (alive (main c)); [lia|done].
  - destruct (alive (main c)) eqn:Halive.
    + destruct (progress c Hpos Halive) as [c1 Hstep]. rewrite Hstep.
      pose proof (step_work_left _ _ _ Hstep) as Hless.
      destruct (IH c1) as [Hreach Hend]; [lia|].
      split; [by eapply reaches_step|done].
    + destruct (step W max_workers (next_action c) c) as [c1|] eqn:Hstep.
      * apply step_alive in Hstep. congruence.
      * split; [apply reaches_refl|done].
Qed.

Lemma step_accounted (tickers : list string) (a : action) (c c' : config) :
  accounted tickers c -> step W max_workers a c = Some c' -> accounted tickers c'.
Proof.
  unfold accounted. intros Hacc Hstep.
  destruct a; simpl in Hstep; invert_step Hstep; simpl in *;
    rewrite Hacc; clear Hacc;
    repeat match goal with H : queue _ = _ |- _ => rewrite H end;
    rewrite ?fmap_app; simpl.
  all: try (by solve_Permutation).
  - match goal with H : running c !! _ = Some _ |- _ =>
      rewrite (delete_Permutation _ _ _ H) at 1 end.
    by solve_Permutation.
  - match goal with H : finished c !! _ = Some _ |- _ =>
      rewrite (delete_Permutation _ _ _ H) at 1 end.
    rewrite fmap_cons. simpl. by solve_Permutation.
  - match goal with H : finished c !! _ = Some _ |- _ =>
      rewrite (delete_Permutation _ _ _ H) at 1 end.
    rewrite fmap_cons. simpl. by solve_Permutation.
Qed.

Lemma run_accounted (tickers : list string) (schedule : list action) (c c' : config) :
  accounted tickers c -> run W max_workers schedule c = Some c' -> accounted tickers c'.
Proof.
  revert c. induction schedule as [|a schedule IH]; intros c Hacc Hrun; simpl in Hrun.
  - by simplify_eq.
  - destruct (step W max_workers a c) as [c1|] eqn:Hstep; [|done].
    eapply IH; [|done]. by eapply step_accounted.
Qed.

Lemma start_accounted (tickers : list string) (s : state) :
  0 < max_workers -> accounted tickers (parallel_process_stocks max_workers tickers s).
Proof.
  intros Hpos. unfold parallel_process_stocks, accounted.
  destruct (Z.leb_spec max_workers 0); [lia|]. done.
Qed.

Lemma harmless_not_stopping (l : list (string * outcome)) :
  Forall harmless l -> Exists stopping l -> False.
Proof.
  intros Hall Hex. apply Exists_exists in Hex as (p & Hin & Hstop).
  rewrite Forall_forall in Hall. specialize (Hall p Hin).
  unfold harmless, stopping in *. congruence.
Qed.

Lemma skipped_is_harmless (t : string) :
  harmless (t, Ok ("Already processed " +:+ t)).
Proof. reflexivity. Qed.

Lemma step_all_skipped (s : state) (a : action) (c c' : config) :
  all_skipped s c -> step W max_workers a c = Some c' -> all_skipped s c'.
Proof.
  unfold all_skipped. intros (Hmem & Hrun & Hq & Hfin & Hcol) Hstep. subst s.
  destruct a; simpl in Hstep; invert_step Hstep; simpl in *;
    repeat match goal with H : queue _ = _ |- _ => rewrite H in * end.
  - apply Forall_cons in Hq as [_ Hq]. repeat split; try done.
    apply Forall_app. split; [done|]. apply Forall_singleton, skipped_is_harmless.
  - apply Forall_cons in Hq as [Hin _].
    match goal with H : already_processed _ _ = false |- _ =>
      unfold already_processed in H;
      by rewrite bool_decide_eq_true_2 in H end.
  - match goal with H : running c !! _ = Some _ |- _ => by rewrite Hrun in H end.
  - match goal with H : finished c !! _ = Some ?p |- _ =>
      assert (harmless p) by (rewrite Forall_forall in Hfin;
                              eapply Hfin, list_elem_of_lookup_2, H) end.
    repeat split; try done.
    + by apply Forall_delete.
    + apply Forall_app. split; [done|]. by apply Forall_singleton.
  - match goal with H : finished c !! _ = Some ?p |- _ =>
      assert (harmless p) by (rewrite Forall_forall in Hfin;
                              eapply Hfin, list_elem_of_lookup_2, H) end.
    repeat split; try done.
    + by apply Forall_delete.
    + apply Forall_app. split; [done|]. by apply Forall_singleton.
  - done.
  - done.
Qed.

Lemma run_all_skipped (s : state) (schedule : list action) (c c' : config) :
  all_skipped s c -> run W max_workers schedule c = Some c' -> all_skipped s c'.
Proof.
  revert c. induction schedule as [|a schedule IH]; intros c Hinv Hrun; simpl in Hrun.
  - by simplify_eq.
  - destruct (step W max_workers a c) as [c1|] eqn:Hstep; [|done].
    eapply IH; [|done]. by eapply step_all_skipped.
Qed.

Lemma start_all_skipped (tickers : list string) (s : state) :
  Forall (fun t => t ∈ successful_tickers s) tickers ->
  all_skipped s (parallel_process_stocks max_workers tickers s).
Proof.
  intros Hall. unfold parallel_process_stocks, all_skipped.
  destruct (max_workers <=? 0); simpl; repeat split; done || constructor.
Qed.

(** C1. A ticker that is in the successful ledger is skipped:
    [process_stock] returns "Already processed <ticker>" and the state (the
    two lists, the two files, the calls made) is the one it was given. So a
    run of [parallel_process_stocks] over tickers that are all in the
    successful ledger never changes the state, whatever the schedule, and
    ends by returning. *)
Theorem already_successful_is_skipped (tickers : list string) (s : state) :
  Forall (fun t => t ∈ successful_tickers s) tickers ->
  (forall t, t ∈ tickers ->
     process_stock W t s = (Ok ("Already processed " +:+ t), s))
  /\ (forall c, reaches W max_workers (parallel_process_stocks max_workers tickers s) c ->
        mem c = s
        /\ (0 < max_workers -> alive (main c) = false -> main c = Returned)).
Proof.
  intros Hall. split.
  - intros t Hin. rewrite Forall_forall in Hall.
    unfold process_stock, already_processed, ret.
    by rewrite bool_decide_eq_true_2 by auto.
  - intros c [schedule Hrun].
    pose proof (run_all_skipped s _ _ _ (start_all_skipped _ _ Hall) Hrun)
      as (Hmem & _ & _ & _ & Hcol).
    split; [done|]. intros Hpos Hend.
    pose proof (run_driver_inv _ _ _ (start_driver_inv tickers s Hpos) Hrun) as Hinv.
    unfold driver_inv in Hinv. destruct (main c); try done.
    destruct Hinv as (_ & Hex & _). destruct (harmless_not_stopping _ Hcol Hex).
Qed.

(** C4. In every configuration a run of [parallel_process_stocks] reaches
    (with a pool of at least one worker): the main thread has collected an
    outcome that is an error string or an exception exactly when it is
    aborting or the process has exited, and the exit status is then 1; a
    run that has ended has exited with status 1 or returned; it has
    returned only with every ticker's outcome collected and none of them an
    error, and it returns whenever no task gave an error; and every run
    ends, within the number of actions [work_left] counts. *)
Theorem fail_fast (tickers : list string) (s : state) (c : config) :
  0 < max_workers ->
  reaches W max_workers (parallel_process_stocks max_workers tickers s) c ->
  (Exists stopping (collected c) <-> main c = Aborting \/ main c = Exited 1)
  /\ (alive (main c) = false -> main c = Exited 1 \/ main c = Returned)
  /\ (main c = Returned -> Forall harmless (collected c) /\ tickers ≡ₚ (collected c).*1)
  /\ (alive (main c) = false -> Forall harmless (collected c ++ finished c) ->
       main c = Returned)
  /\ (exists c', reaches W max_workers c c' /\ alive (main c') = false)
  /\ (forall schedule c', run W max_workers schedule c = Some c' ->
         (length schedule <= work_left c)%nat).
Proof.
  intros Hpos [schedule Hrun].
  pose proof (run_driver_inv _ _ _ (start_driver_inv tickers s Hpos) Hrun) as Hinv.
  pose proof (run_accounted _ _ _ _ (start_accounted tickers s Hpos) Hrun) as Hacc.
  unfold driver_inv in Hinv. unfold accounted in Hacc.
  split; [|split; [|split; [|split; [|split]]]].
  - split.
    + intros Hex. destruct (main c) as [ | | |status|e]; try done.
      * destruct (harmless_not_stopping _ Hinv Hex).
      * by left.
      * destruct Hinv as [Hall _]. destruct (harmless_not_stopping _ Hall Hex).
      * destruct Hinv as [-> _]. by right.
    + intros [Hmain|Hmain]; rewrite Hmain in Hinv; [done|]. by destruct Hinv as (_ & Hex & _).
  - intros Hend. destruct (main c) as [ | | |status|e]; try done.
    + by right.
    + destruct Hinv as [-> _]. by left.
  - intros Hmain. rewrite Hmain in Hinv. destruct Hinv as (Hall & Hq & Hr & Hf).
    split; [done|].
    rewrite Hq, Hr, Hf in Hacc. simpl in Hacc. by rewrite app_nil_r in Hacc.
  - intros Hend Hall. apply Forall_app in Hall as [Hall _].
    destruct (main c) as [ | | |status|e]; try done.
    destruct Hinv as (_ & Hex & _). destruct (harmless_not_stopping _ Hall Hex).
  - exists (run_in_order W max_workers (work_left c) c).
    by apply run_in_order_ends.
  - intros schedule' c' Hrun'. apply run_work_left in Hrun'. lia.
Qed.

Lemma in_a_ledger_mono (s s' : state) (t : string) :
  successful_tickers s ⊆ successful_tickers s' ->
  unsuccessful_tickers s ⊆ unsuccessful_tickers s' ->
  in_a_ledger s t -> in_a_ledger s' t.
Proof. intros Hs Hu [Hin|Hin]; [left|right]; auto. Qed.

Lemma step_ledgered (a : action) (c c' : config) :
  ledgered c -> step W max_workers a c = Some c' -> ledgered c'.
Proof.
  unfold ledgered. intros Hinv Hstep.
  destruct a; simpl in Hstep; invert_step Hstep; simpl in *.
  - rewrite app_assoc. apply Forall_app. split; [done|].
    apply Forall_singleton. left. simpl.
    match goal with H : already_processed _ _ = true |- _ =>
      by apply bool_decide_eq_true_1 in H end.
  - done.
  - match goal with H : try_statement W _ _ = _ |- _ =>
      apply try_statement_ledgers in H as [[Hs Hu]|[Hs Hu]] end;
      rewrite app_assoc; (apply Forall_app; split;
        [eapply Forall_impl; [exact Hinv|]; intros p Hp;
         eapply in_a_ledger_mono; [| |exact Hp]; rewrite ?Hs, ?Hu;
         try done; by apply sublist_subseteq, sublist_inserts_r
        |apply Forall_singleton; simpl]).
    + left. rewrite Hs. apply elem_of_app. right. apply list_elem_of_here.
    + right. rewrite Hu. apply elem_of_app. right. apply list_elem_of_here.
  - match goal with H : finished c !! _ = Some _ |- _ =>
      rewrite (delete_Permutation _ _ _ H) in Hinv end.
    rewrite <- app_assoc. simpl. exact Hinv.
  - match goal with H : finished c !! _ = Some _ |- _ =>
      rewrite (delete_Permutation _ _ _ H) in Hinv end.
    rewrite <- app_assoc. simpl. exact Hinv.
  - done.
  - done.
Qed.

Lemma run_ledgered (schedule : list action) (c c' : config) :
  ledgered c -> run W max_workers schedule c = Some c' -> ledgered c'.
Proof.
  revert c. induction schedule as [|a schedule IH]; intros c Hinv Hrun; simpl in Hrun.
  - by simplify_eq.
  - destruct (step W max_workers a c) as [c1|] eqn:Hstep; [|done].
    eapply IH; [|done]. by eapply step_ledgered.
Qed.

Lemma start_ledgered (tickers : list string) (s : state) :
  ledgered (parallel_process_stocks max_workers tickers s).
Proof.
  unfold parallel_process_stocks, ledgered.
  destruct (max_workers <=? 0); simpl; constructor.
Qed.

(** Whatever the schedule, a run ends only with every submitted ticker's
    task run to its end: nothing is left in the queue or in flight, and
    every ticker is in one of the two ledgers, be it after a return or
    after the abort. *)
Theorem every_task_runs (tickers : list string) (s : state) (c : config) :
  0 < max_workers ->
  reaches W max_workers (parallel_process_stocks max_workers tickers s) c ->
  alive (main c) = false ->
  queue c = [] /\ running c = []
  /\ tickers ≡ₚ (collected c ++ finished c).*1
  /\ Forall (in_a_ledger (mem c)) tickers.
Proof.
  intros Hpos [schedule Hrun] Hend.
  pose proof (run_driver_inv _ _ _ (start_driver_inv tickers s Hpos) Hrun) as Hinv.
  pose proof (run_accounted _ _ _ _ (start_accounted tickers s Hpos) Hrun) as Hacc.
  pose proof (run_ledgered _ _ _ (start_ledgered tickers s) Hrun) as Hled.
  unfold driver_inv in Hinv. unfold accounted in Hacc. unfold ledgered in Hled.
  assert (Hidle : queue c = [] /\ running c = []).
  { destruct (main c); try done; [by destruct Hinv as (_ & ? & ? & _)|
                                  by destruct Hinv as (_ & _ & ? & ?)]. }
  destruct Hidle as [Hq Hr]. rewrite Hq, Hr in Hacc. simpl in Hacc.
  rewrite app_nil_r, <- fmap_app in Hacc.
  repeat split; try done.
  rewrite Hacc. apply Forall_fmap.
  eapply Forall_impl; [exact Hled|]. by intros p Hp.
Qed.

End PoolFacts.

(** ** Facts about the query service *)



(** C9. A request whose query is empty is answered by [HTTPException] with
    status 400, and the list of gateway searches is the one before the
    request; whenever the handler does search the gateway, the query is not
    empty. *)
Theorem empty_query_is_refused (G : Gateway) (search : SearchRequest.t)
    (searches : list (string * Z)) :
  (SearchRequest.query search = "" ->
   research G search searches
   = (HTTPException 400 "Query parameter is required.", searches))
  /\ ((research G search searches).2 <> searches -> SearchRequest.query search <> "")
  /\ (SearchRequest.query search <> "" ->
      (research G search searches).2
      = searches ++ [(SearchRequest.query search, SearchRequest.k search)]).
Proof.
  unfold research. simpl.
  destruct (String.eqb_spec (SearchRequest.query search) "") as [Heq|Hne]; simpl.
  - repeat split; done.
  - split; [done|]. split; [done|]. intros _.
    by destruct (similarity_search G _ _ _).
Qed.

(** ** The theorems at sample inputs *)

(** [XOM] is in the successful ledger of [resumed_ledger]: it is skipped
    and the state is untouched. *)
Lemma already_successful_is_skipped_witness :
  Forall (fun t => t ∈ successful_tickers resumed_ledger) ["XOM"]
  /\ process_stock sample_world "XOM" resumed_ledger
     = (Ok "Already processed XOM", resumed_ledger).
Proof.
  assert (Hall : Forall (fun t => t ∈ successful_tickers resumed_ledger) ["XOM"]).
  { apply Forall_singleton. simpl. apply list_elem_of_here. }
  split; [exact Hall|].
  apply (proj1 (already_successful_is_skipped sample_world 10 ["XOM"] resumed_ledger Hall)).
  apply list_elem_of_here.
Defined.

(** The record built from [odd_info] is normalized to storable values. *)
Lemma normalization_total_witness :
  NoDup (properties odd_info).*1
  /\ Forall (fun kv => storable kv.2 = true) (normalize (properties odd_info)).
Proof.
  assert (Hnd : NoDup (properties odd_info).*1) by exact field_names_NoDup.
  split; [exact Hnd|].
  exact (proj1 (proj2 (normalization_total (properties odd_info) Hnd))).
Defined.

(** C2 as stated fails: the city of [odd_info] is a list, and the loop
    leaves a list (of strings) in the record, which is none of string, int,
    float and bool. *)
Lemma normalization_keeps_lists :
  dict_lookup "City" (normalize (properties odd_info))
  = Some (VList [VStr "Houston"; VStr "Irving"])
  /\ is_scalar (VList [VStr "Houston"; VStr "Irving"]) = false
  /\ Exists (fun kv => is_scalar kv.2 = false) (normalize (properties odd_info)).
Proof.
  split; [by vm_compute|]. split; [reflexivity|].
  apply Exists_exists. exists ("City", VList [VStr "Houston"; VStr "Irving"]).
  split; [|reflexivity].
  apply list_elem_of_lookup. exists 3%nat. by vm_compute.
Qed.

(** The provider raises on [ZZZZ]: the failure is recorded once more in
    the unsuccessful ledger. *)
Lemma process_stock_records_failure_witness :
  ("ZZZZ" ∉ successful_tickers resumed_ledger)
  /\ (attempt sample_world "ZZZZ" resumed_ledger).1
     = Raise (Exception "No data found, symbol may be delisted")
  /\ exists s',
       process_stock sample_world "ZZZZ" resumed_ledger
       = (Ok "ERROR processing ZZZZ: No data found, symbol may be delisted", s')
       /\ unsuccessful_tickers s' = ["ZZZZ"; "ZZZZ"].
Proof.
  assert (Hnew : "ZZZZ" ∉ successful_tickers resumed_ledger).
  { simpl. intros Hin. apply list_elem_of_singleton in Hin. discriminate Hin. }
  assert (Hraise : (attempt sample_world "ZZZZ" resumed_ledger).1
                   = Raise (Exception "No data found, symbol may be delisted"))
    by reflexivity.
  split; [exact Hnew|]. split; [exact Hraise|].
  destruct (process_stock_records_failure sample_world "ZZZZ" resumed_ledger _ Hnew Hraise)
    as (s' & Hout & _ & _ & Hlist & _).
  exists s'. split; [exact Hout|exact Hlist].
Defined.

(** The sample run: once the error of [ZZZZ] is collected the main thread
    is aborting. *)
Lemma fail_fast_witness :
  0 < 1
  /\ reaches sample_world 1 sample_start sample_aborting
  /\ Exists stopping (collected sample_aborting)
  /\ (main sample_aborting = Aborting \/ main sample_aborting = Exited 1).
Proof.
  assert (Hpos : 0 < 1) by lia.
  assert (Hreach : reaches sample_world 1 sample_start sample_aborting).
  { exists [WorkerStart; WorkerFinish 0; Collect 0]. reflexivity. }
  assert (Hstop : Exists stopping (collected sample_aborting)).
  { apply Exists_cons_hd. reflexivity. }
  split; [exact Hpos|]. split; [exact Hreach|]. split; [exact Hstop|].
  exact (proj1 (proj1 (fail_fast sample_world 1 ["ZZZZ"; "XOM"] no_ledger sample_aborting
                         Hpos Hreach)) Hstop).
Defined.

(** C5 fails on the code. In the sample run the abort starts with [XOM]
    still in the queue, not started and in no ledger; the run then goes on:
    a worker takes [XOM], indexes it and appends it to the successful
    ledger, and only then does the process exit with status 1. *)
Theorem abort_still_runs_queued_task :
  reaches sample_world 1 sample_start sample_aborting
  /\ main sample_aborting = Aborting
  /\ queue sample_aborting = ["XOM"]
  /\ running sample_aborting = []
  /\ successful_tickers (mem sample_aborting) = []
  /\ successful_file (mem sample_aborting) = ""
  /\ reaches sample_world 1 sample_aborting sample_exited
  /\ main sample_exited = Exited 1
  /\ successful_tickers (mem sample_exited) = ["XOM"]
  /\ successful_file (mem sample_exited) = "XOM" +:+ newline
  /\ unsuccessful_tickers (mem sample_exited) = ["ZZZZ"].
Proof.
  split; [exists [WorkerStart; WorkerFinish 0; Collect 0]; reflexivity|].
  do 5 (split; [reflexivity|]).
  split; [exists [WorkerStart; WorkerFinish 0; Leave]; by vm_compute|].
  repeat split; by vm_compute.
Qed.

(** Emptying the unsuccessful ledger changes nothing to what
    [process_stock] returns for [ZZZZ]. *)
Lemma unsuccessful_ledger_not_consulted_witness :
  same_but_unsuccessful resumed_ledger
    {| successful_tickers := ["XOM"]; unsuccessful_tickers := [];
       successful_file := "XOM" +:+ newline; unsuccessful_file := ""; calls := [] |}
  /\ (process_stock sample_world "ZZZZ" resumed_ledger).1
     = (process_stock sample_world "ZZZZ"
          {| successful_tickers := ["XOM"]; unsuccessful_tickers := [];
             successful_file := "XOM" +:+ newline; unsuccessful_file := "";
             calls := [] |}).1.
Proof.
  assert (Hsame : same_but_unsuccessful resumed_ledger
    {| successful_tickers := ["XOM"]; unsuccessful_tickers := [];
       successful_file := "XOM" +:+ newline; unsuccessful_file := ""; calls := [] |}).
  { repeat split. }
  split; [exact Hsame|].
  exact (proj1 (unsuccessful_ledger_not_consulted sample_world "ZZZZ" _ _ Hsame)).
Defined.

(** The record built from [odd_info], which has no [longName]. *)
Lemma get_stock_info_fields_witness :
  ticker_info sample_world (calls no_ledger) "ODD" = Ok odd_info
  /\ exists record,
       (get_stock_info sample_world "ODD" no_ledger).1 = Ok record
       /\ record.*1 = field_names
       /\ dict_lookup "Name" record = Some (VStr "Information not available").
Proof.
  assert (Hinfo : ticker_info sample_world (calls no_ledger) "ODD" = Ok odd_info)
    by reflexivity.
  split; [exact Hinfo|].
  destruct (get_stock_info_fields sample_world "ODD" no_ledger odd_info Hinfo)
    as (record & Hrec & Hkeys & Hmissing & _).
  exists record. split; [exact Hrec|]. split; [exact Hkeys|].
  apply (Hmissing "Name" "longName").
  - unfold defaulted_fields. apply list_elem_of_further, list_elem_of_here.
  - by vm_compute.
Defined.


Lemma empty_query_is_refused_witness :
  research (ranked_gateway five_matches)
    {| SearchRequest.query := ""; SearchRequest.k := 3 |} []
  = (HTTPException 400 "Query parameter is required.", []).
Proof.
  exact (proj1 (empty_query_is_refused (ranked_gateway five_matches)
                  {| SearchRequest.query := ""; SearchRequest.k := 3 |} []) eq_refl).
Defined.

(** The summary of [odd_info] is the number 7: the document's text is the
    sentinel and the metadata keeps the number. *)
Lemma document_text_is_a_string_witness :
  ("ODD" ∉ successful_tickers resumed_ledger)
  /\ ticker_info sample_world (calls resumed_ledger) "ODD" = Ok odd_info
  /\ exists doc,
       calls (process_stock sample_world "ODD" resumed_ledger).2
       = [CallInfo "ODD"; CallAddDocuments [doc]]
       /\ page_content doc = "No summary available"
       /\ dict_lookup "Business Summary" (metadata doc) = Some (VInt 7).
Proof.
  assert (Hnew : "ODD" ∉ successful_tickers resumed_ledger).
  { simpl. intros Hin. apply list_elem_of_singleton in Hin. discriminate Hin. }
  assert (Hinfo : ticker_info sample_world (calls resumed_ledger) "ODD" = Ok odd_info)
    by reflexivity.
  split; [exact Hnew|]. split; [exact Hinfo|].
  destruct (document_text_is_a_string sample_world "ODD" resumed_ledger odd_info Hnew Hinfo)
    as (doc & Hcalls & Hsentinel & _ & _ & Hmeta).
  exists doc. split; [exact Hcalls|]. split; [by apply Hsentinel|].
  rewrite Hmeta. by vm_compute.
Defined.

(** ** Facts about strings, [strip] and [load_tickers] *)

Lemma append_cons (c : ascii) (s r : string) : String c s +:+ r = String c (s +:+ r).
Proof. reflexivity. Qed.

Lemma append_nil_r (s : string) : s +:+ "" = s.
Proof. induction s as [|c s IH]; [done|]. by rewrite append_cons, IH. Qed.

Lemma append_assoc (s r t : string) : (s +:+ r) +:+ t = s +:+ (r +:+ t).
Proof. induction s as [|c s IH]; [done|]. by rewrite !append_cons, IH. Qed.

Lemma contains_char_app (c : ascii) (s r : string) :
  contains_char c (s +:+ r) = contains_char c s || contains_char c r.
Proof.
  induction s as [|c' s IH]; [done|].
  rewrite append_cons. simpl. rewrite IH. by rewrite orb_assoc.
Qed.

Lemma contains_char_cons (c c' : ascii) (s : string) :
  contains_char c (String c' s) = Ascii.eqb c c' || contains_char c s.
Proof. reflexivity. Qed.

Lemma ascii_eqb_ne (c c' : ascii) : c <> c' -> Ascii.eqb c' c = false.
Proof. intros Hne. destruct (Ascii.eqb_spec c' c); congruence. Qed.

Lemma LF_isspace : py_isspace LF = true.
Proof. reflexivity. Qed.

Lemma lstrip_idemp (s : string) : lstrip (lstrip s) = lstrip s.
Proof.
  induction s as [|c s IH]; [done|]. simpl.
  destruct (py_isspace c) eqn:Hc; [done|]. simpl. by rewrite Hc.
Qed.

Lemma rstrip_cons (c : ascii) (s : string) :
  rstrip (String c s)
  = if String.eqb (rstrip s) "" then (if py_isspace c then "" else String c "")
    else String c (rstrip s).
Proof. simpl. by destruct (rstrip s). Qed.

Lemma rstrip_idemp (s : string) : rstrip (rstrip s) = rstrip s.
Proof.
  induction s as [|c s IH]; [done|]. rewrite rstrip_cons.
  destruct (String.eqb_spec (rstrip s) "") as [Hnil|Hne].
  - destruct (py_isspace c) eqn:Hc; [done|]. simpl. by rewrite Hc.
  - rewrite rstrip_cons, IH. by destruct (String.eqb_spec (rstrip s) "").
Qed.

(** Stripping on the left keeps a text that has nothing to strip on the
    right. *)
Lemma rstrip_lstrip (s : string) : rstrip s = s -> rstrip (lstrip s) = lstrip s.
Proof.
  induction s as [|c s IH]; [done|]. intros Hfix. simpl.
  destruct (py_isspace c) eqn:Hc; [|done].
  apply IH. rewrite rstrip_cons, Hc in Hfix.
  destruct (String.eqb_spec (rstrip s) ""); by simplify_eq.
Qed.

(** A line feed at the end of a line is stripped with the rest. *)
Lemma rstrip_newline (s : string) : rstrip (s +:+ newline) = rstrip s.
Proof.
  induction s as [|c s IH]; [done|].
  by rewrite append_cons, !rstrip_cons, IH.
Qed.

Lemma contains_char_lstrip (c : ascii) (s : string) :
  contains_char c s = false -> contains_char c (lstrip s) = false.
Proof.
  induction s as [|c' s IH]; [done|]. simpl.
  intros [Hc Hs]%orb_false_elim. destruct (py_isspace c'); [auto|].
  simpl. by rewrite Hc, Hs.
Qed.

Lemma contains_char_rstrip (c : ascii) (s : string) :
  contains_char c s = false -> contains_char c (rstrip s) = false.
Proof.
  induction s as [|c' s IH]; [done|]. rewrite rstrip_cons. simpl.
  intros [Hc Hs]%orb_false_elim.
  destruct (String.eqb (rstrip s) "").
  - destruct (py_isspace c'); [done|]. simpl. by rewrite Hc.
  - simpl. by rewrite Hc, IH.
Qed.

Lemma is_token_spec (t : string) :
  is_token t = true <->
  t <> "" /\ lstrip t = t /\ rstrip t = t
  /\ contains_char LF t = false /\ contains_char CR t = false.
Proof.
  unfold is_token. rewrite !andb_true_iff, !negb_true_iff.
  rewrite !String.eqb_eq, String.eqb_neq. tauto.
Qed.

(** What [strip] gives is a token, unless it is empty, when the text had
    no line break. *)
Lemma strip_is_token (s : string) :
  contains_char LF s = false -> contains_char CR s = false ->
  strip s <> "" -> is_token (strip s) = true.
Proof.
  intros Hlf Hcr Hne. apply is_token_spec. unfold strip in *.
  repeat split; [done| | | |].
  - apply lstrip_idemp.
  - apply rstrip_lstrip, rstrip_idemp.
  - by apply contains_char_lstrip, contains_char_rstrip.
  - by apply contains_char_lstrip, contains_char_rstrip.
Qed.

Lemma strip_token (t : string) : is_token t = true -> strip t = t.
Proof.
  intros (_ & Hl & Hr & _)%is_token_spec. unfold strip. by rewrite Hr, Hl.
Qed.

Lemma strip_token_line (t : string) : is_token t = true -> strip (t +:+ newline) = t.
Proof.
  intros Htok. unfold strip. rewrite rstrip_newline. by apply strip_token.
Qed.

(** The text read holds no carriage return. *)
Lemma universal_newlines_no_CR (b : bool) (s : string) :
  contains_char CR (universal_newlines b s) = false.
Proof.
  revert b. induction s as [|c s IH]; intros b; [done|]. simpl.
  destruct (Ascii.eqb_spec c CR) as [->|Hcr].
  { rewrite contains_char_cons, IH. done. }
  destruct (Ascii.eqb_spec c LF) as [->|Hlf].
  - destruct b; rewrite ?contains_char_cons, IH; done.
  - by rewrite contains_char_cons, IH, (ascii_eqb_ne _ _ Hcr).
Qed.

(** Every line is a text without line feed, followed or not by one. *)
Lemma readlines_shape (text line : string) :
  line ∈ readlines text ->
  exists body, contains_char LF body = false
               /\ (line = body \/ line = body +:+ newline).
Proof.
  revert line. induction text as [|c text IH]; intros line Hin; simpl in Hin.
  { by apply elem_of_nil in Hin. }
  destruct (Ascii.eqb_spec c LF) as [->|Hlf].
  - apply elem_of_cons in Hin as [->|Hin]; [|by apply IH].
    exists "". split; [done|]. by right.
  - destruct (readlines text) as [|first rest] eqn:Hlines.
    + apply list_elem_of_singleton in Hin as ->.
      exists (String c ""). split; [|by left].
      by rewrite contains_char_cons, (ascii_eqb_ne _ _ Hlf).
    + apply elem_of_cons in Hin as [->|Hin].
      * destruct (IH first) as (body & Hbody & Hline); [left|].
        exists (String c body). split.
        { by rewrite contains_char_cons, (ascii_eqb_ne _ _ Hlf), Hbody. }
        destruct Hline as [->| ->]; [by left|by right].
      * apply IH. by right.
Qed.

Lemma readlines_no_CR (text line : string) :
  contains_char CR text = false -> line ∈ readlines text ->
  contains_char CR line = false.
Proof.
  revert line. induction text as [|c text IH]; intros line Hcr Hin; simpl in Hin.
  { by apply elem_of_nil in Hin. }
  rewrite contains_char_cons in Hcr. apply orb_false_elim in Hcr as [Hc Hcr].
  destruct (Ascii.eqb_spec c LF) as [->|Hlf].
  - apply elem_of_cons in Hin as [->|Hin]; [done|by apply IH].
  - destruct (readlines text) as [|first rest] eqn:Hlines.
    + apply list_elem_of_singleton in Hin as ->.
      by rewrite contains_char_cons, Hc.
    + apply elem_of_cons in Hin as [->|Hin].
      * rewrite contains_char_cons, Hc. simpl. apply IH; [done|left].
      * apply IH; [done|by right].
Qed.

(** Every ticker [load_tickers] returns is a token: not empty, with no
    white space at either end and no line break inside. *)
Theorem load_tickers_tokens (file : option string) :
  Forall (fun t => is_token t = true) (load_tickers file).
Proof.
  destruct file as [content|]; [|constructor]. unfold load_tickers.
  apply Forall_forall. intros t Hin.
  apply list_elem_of_In, in_map_iff in Hin as (line & <- & Hin).
  apply filter_In in Hin as [Hin Hkeep]. apply list_elem_of_In in Hin.
  pose proof (readlines_no_CR _ _ (universal_newlines_no_CR false content) Hin) as Hcr.
  destruct (readlines_shape _ _ Hin) as (body & Hlf & Hline).
  assert (Hstrip : strip line = strip body).
  { destruct Hline as [->| ->]; [done|]. unfold strip. by rewrite rstrip_newline. }
  assert (Hcr' : contains_char CR body = false).
  { destruct Hline as [->| ->]; [done|].
    rewrite contains_char_app in Hcr. by apply orb_false_elim in Hcr as [? _]. }
  rewrite Hstrip in *. apply strip_is_token; [done..|].
  simpl in Hkeep. intros Hnil. by rewrite Hnil in Hkeep.
Qed.

Lemma readlines_line (t rest : string) :
  contains_char LF t = false ->
  readlines (t +:+ newline +:+ rest) = (t +:+ newline) :: readlines rest.
Proof.
  induction t as [|c t IH]; intros Hlf; [done|].
  rewrite contains_char_cons in Hlf. apply orb_false_elim in Hlf as [Hc Hlf].
  rewrite !append_cons. simpl.
  destruct (Ascii.eqb_spec c LF) as [->|_]; [done|].
  by rewrite (IH Hlf).
Qed.

Lemma universal_newlines_plain (b : bool) (t rest : string) :
  t <> "" -> contains_char LF t = false -> contains_char CR t = false ->
  universal_newlines b (t +:+ rest) = t +:+ universal_newlines false rest.
Proof.
  revert b. induction t as [|c t IH]; intros b Hne Hlf Hcr; [done|].
  rewrite contains_char_cons in Hlf, Hcr.
  apply orb_false_elim in Hlf as [Hc1 Hlf]. apply orb_false_elim in Hcr as [Hc2 Hcr].
  rewrite !append_cons. simpl.
  destruct (Ascii.eqb_spec c CR) as [->|_]; [done|].
  destruct (Ascii.eqb_spec c LF) as [->|_]; [done|].
  f_equal. destruct t as [|c' t]; [done|]. by apply IH.
Qed.

Lemma universal_newlines_tokens (ts : list string) :
  Forall (fun t => is_token t = true) ts ->
  universal_newlines false (lines_text ts) = lines_text ts.
Proof.
  induction 1 as [|t ts Htok _ IH]; [done|]. simpl.
  apply is_token_spec in Htok as (Hne & _ & _ & Hlf & Hcr).
  rewrite universal_newlines_plain by done. f_equal.
  change (newline +:+ lines_text ts) with (String LF (lines_text ts)).
  simpl. by rewrite IH.
Qed.

(** What was appended for tokens is read back as written. *)
Lemma load_tickers_lines_text (ts : list string) :
  Forall (fun t => is_token t = true) ts ->
  load_tickers (Some (lines_text ts)) = ts.
Proof.
  intros Hall. unfold load_tickers. rewrite universal_newlines_tokens by done.
  cbv zeta. induction Hall as [|t ts Htok _ IH]; [done|].
  pose proof Htok as (Hne & _ & _ & Hlf & _)%is_token_spec.
  change (lines_text (t :: ts)) with (t +:+ newline +:+ lines_text ts).
  rewrite readlines_line by done. cbn [List.filter].
  rewrite strip_token_line by done. cbn [truthy].
  destruct (String.eqb_spec t ""); [done|]. cbn [negb List.map].
  rewrite strip_token_line by done. f_equal. exact IH.
Qed.

(** Reading a text that ends with a line feed, followed by another text:
    the two are read one after the other. *)
Lemma universal_newlines_app (b : bool) (body rest : string) :
  universal_newlines b (body +:+ newline +:+ rest)
  = universal_newlines b (body +:+ newline) +:+ universal_newlines false rest.
Proof.
  revert b. induction body as [|c body IH]; intros b.
  - change ("" +:+ newline +:+ rest) with (String LF rest).
    change ("" +:+ newline) with (String LF ""). simpl. by destruct b.
  - rewrite !append_cons. simpl.
    destruct (Ascii.eqb c CR); [by rewrite IH|].
    destruct (Ascii.eqb c LF); [destruct b|]; by rewrite IH.
Qed.

Lemma universal_newlines_terminated (b : bool) (body : string) :
  b = false \/ body <> "" ->
  exists text, universal_newlines b (body +:+ newline) = text +:+ newline.
Proof.
  revert b. induction body as [|c body IH]; intros b Hb.
  - destruct Hb as [->|?]; [|done]. by exists "".
  - rewrite append_cons. simpl.
    destruct (Ascii.eqb c CR).
    + destruct body as [|c' body].
      * exists "". done.
      * destruct (IH true) as [text Htext]; [by right|].
        rewrite Htext. by exists (String LF text).
    + destruct (Ascii.eqb c LF).
      * destruct (IH false) as [text Htext]; [by left|]. rewrite Htext.
        destruct b; [by exists text|by exists (String LF text)].
      * destruct (IH false) as [text Htext]; [by left|]. rewrite Htext.
        by exists (String c text).
Qed.

Lemma readlines_app (body rest : string) :
  readlines (body +:+ newline +:+ rest) = readlines (body +:+ newline) ++ readlines rest.
Proof.
  induction body as [|c body IH]; [done|].
  rewrite !append_cons. simpl.
  destruct (Ascii.eqb c LF); [by rewrite IH|].
  rewrite IH. destruct (readlines (body +:+ newline)) as [|first lines] eqn:Hlines; [|done].
  exfalso. clear IH. revert Hlines. clear.
  induction body as [|c body IH]; [done|].
  rewrite append_cons. simpl. destruct (Ascii.eqb c LF); [done|].
  by destruct (readlines (body +:+ newline)).
Qed.

(** A ledger file that ends with a line feed, to which lines are appended:
    the tickers of the file, then those of the lines. *)
Lemma load_tickers_app (text more : string) :
  terminated text ->
  load_tickers (Some (text +:+ more))
  = load_tickers (Some text) ++ load_tickers (Some more).
Proof.
  intros [->|[body ->]]; [done|]. unfold load_tickers.
  rewrite append_assoc, universal_newlines_app.
  destruct (universal_newlines_terminated false body) as [read Hread]; [by left|].
  rewrite Hread, append_assoc, readlines_app.
  cbv zeta. by rewrite List.filter_app, List.map_app.
Qed.

(** Lines appended to a ledger file are read back after the tickers the
    file held: when the file ends with a line feed (or is empty) and the
    tickers appended are tokens, [load_tickers] gives the tickers of the
    file followed by the tickers appended, in order. *)
Theorem load_tickers_appended (text : string) (ts : list string) :
  terminated text ->
  Forall (fun t => is_token t = true) ts ->
  load_tickers (Some (text +:+ lines_text ts)) = load_tickers (Some text) ++ ts.
Proof.
  intros Hterm Htok. by rewrite load_tickers_app, load_tickers_lines_text.
Qed.

(** ** One entry per processed ticker *)

Lemma lines_text_app (ts ts' : list string) :
  lines_text (ts ++ ts') = lines_text ts +:+ lines_text ts'.
Proof.
  induction ts as [|t ts IH]; [done|]. simpl.
  by rewrite IH, !append_assoc.
Qed.


Lemma effect_refl (s : state) : effect s s [] [] [].
Proof. unfold effect. simpl. by rewrite !app_nil_r, !append_nil_r. Qed.

Lemma effect_trans (s0 s s' : state) (ds du ds' du' : list string) (dc dc' : list call) :
  effect s0 s ds du dc -> effect s s' ds' du' dc' ->
  effect s0 s' (ds ++ ds') (du ++ du') (dc ++ dc').
Proof.
  intros (H1 & H2 & H3 & H4 & H5) (H1' & H2' & H3' & H4' & H5'). unfold effect.
  rewrite H1', H2', H3', H4', H5', H1, H2, H3, H4, H5.
  by rewrite !lines_text_app, !append_assoc, !app_assoc.
Qed.

Section LedgerFacts.

Variable W : World.

Lemma effect_success (t : string) (s : state) (stock_info : gmap string pyval) :
  effect s
    (append_successful t (write_successful_file (t +:+ newline) (stored t stock_info s)))
    [t] [] [CallInfo t; CallAddDocuments [indexed_document stock_info]].
Proof.
  unfold effect. simpl. rewrite !app_nil_r, !append_nil_r, <- app_assoc. done.
Qed.

Lemma effect_store_failure (t : string) (s : state) (stock_info : gmap string pyval) :
  effect s
    (append_unsuccessful t
       (write_unsuccessful_file (t +:+ newline) (stored t stock_info s)))
    [] [t] [CallInfo t; CallAddDocuments [indexed_document stock_info]].
Proof.
  unfold effect. simpl. rewrite !app_nil_r, !append_nil_r, <- app_assoc. done.
Qed.

Lemma effect_fetch_failure (t : string) (s : state) :
  effect s
    (append_unsuccessful t (write_unsuccessful_file (t +:+ newline) (fetched t s)))
    [] [t] [CallInfo t].
Proof. unfold effect. simpl. rewrite !app_nil_r, !append_nil_r. done. Qed.

(** What the [try] statement adds: the ticker to one ledger, list and file
    alike, and the provider call, followed or not by a vector-store
    write. *)
Lemma try_statement_effect (t : string) (s s' : state) (r : result string) :
  try_statement W t s = (r, s') ->
  exists dc,
    (effect s s' [t] [] dc \/ effect s s' [] [t] dc)
    /\ (dc = [CallInfo t] \/ exists docs, dc = [CallInfo t; CallAddDocuments docs]).
Proof.
  unfold try_statement, try_except.
  destruct (ticker_info W (calls s) t) as [stock_info|e] eqn:Hinfo.
  - rewrite (attempt_fetched W _ _ _ Hinfo).
    destruct (add_documents W _ _) as [[]|e]; intros [= <- <-];
      (eexists; split; [|right; by eexists]).
    + left. apply effect_success.
    + right. apply effect_store_failure.
  - rewrite (attempt_fetch_raises W _ _ _ Hinfo). intros [= <- <-].
    eexists. split; [|by left]. right. apply effect_fetch_failure.
Qed.

(** Every call of [process_stock] returns one of its three strings, and
    it adds to the ledgers what the string says: nothing when the ticker
    was skipped, the ticker to the successful list and file when it was
    processed, to the unsuccessful list and file on an error; never both,
    and list and file by the same line. *)
Theorem process_stock_one_entry (t : string) (s : state) :
  exists r s',
    process_stock W t s = (Ok r, s')
    /\ ((t ∈ successful_tickers s /\ r = "Already processed " +:+ t /\ s' = s)
        \/ ((t ∉ successful_tickers s) /\ r = "Processed " +:+ t +:+ " successfully"
            /\ exists dc, effect s s' [t] [] dc)
        \/ ((t ∉ successful_tickers s)
            /\ (exists e, r = "ERROR processing " +:+ t +:+ ": " +:+ exn_str e)
            /\ exists dc, effect s s' [] [t] dc)).
Proof.
  unfold process_stock, already_processed, ret.
  case_bool_decide as Hin; [by eauto 10|].
  unfold try_statement, try_except.
  destruct (ticker_info W (calls s) t) as [stock_info|e] eqn:Hinfo.
  - rewrite (attempt_fetched W _ _ _ Hinfo).
    destruct (add_documents W _ _) as [[]|e]; do 2 eexists; (split; [done|]).
    + right. left. split; [done|]. split; [done|]. eexists. apply effect_success.
    + right. right. split; [done|]. split; [by eexists|].
      eexists. apply effect_store_failure.
  - rewrite (attempt_fetch_raises W _ _ _ Hinfo). do 2 eexists. split; [done|].
    right. right. split; [done|]. split; [by eexists|].
    eexists. apply effect_fetch_failure.
Qed.

Section PoolLedgers.

Variable max_workers : Z.

Lemma step_pool_effect (s0 : state) (tickers : list string) (a : action) (c c' : config) :
  pool_effect s0 tickers c -> step W max_workers a c = Some c' ->
  pool_effect s0 tickers c'.
Proof.
  unfold pool_effect. intros (ds & du & dc & Heff & Hd & Hrq & Hrun & Hnf) Hstep.
  destruct a; simpl in Hstep; invert_step Hstep; simpl in *.
  - exists ds, du, dc.
    apply Forall_app in Hrq as [Hr Hq]. apply Forall_cons in Hq as [_ Hq].
    split; [done|]. split; [done|]. split; [by apply Forall_app|done].
  - exists ds, du, dc.
    apply Forall_app in Hrq as [Hr Hq]. apply Forall_cons in Hq as [Hin Hq].
    split; [done|]. split; [done|]. split; [|split; [|done]].
    + rewrite <- app_assoc. apply Forall_app. split; [done|]. by apply Forall_cons.
    + apply Forall_app. split; [done|]. apply Forall_singleton.
      match goal with H : already_processed _ _ = false |- _ =>
        apply bool_decide_eq_false_1 in H; rename H into Hnew end.
      destruct Heff as (Hs & _). rewrite Hs in Hnew.
      intros Hold. apply Hnew, elem_of_app. by left.
  - match goal with H : running c !! _ = Some ?t |- _ =>
      rename H into Hlook; rename t into t0 end.
    match goal with H : try_statement W _ _ = _ |- _ =>
      apply try_statement_effect in H as (dc' & Hcase & Hcalls) end.
    assert (Hin : t0 ∈ tickers).
    { apply Forall_app in Hrq as [Hr _]. rewrite Forall_forall in Hr.
      eapply Hr, list_elem_of_lookup_2, Hlook. }
    assert (Hnew : t0 ∉ successful_tickers s0).
    { rewrite Forall_forall in Hrun. eapply Hrun, list_elem_of_lookup_2, Hlook. }
    assert (Hrest : Forall (fun t => t ∈ tickers) (delete i (running c) ++ queue c)
                    /\ Forall (fun t => t ∉ successful_tickers s0) (delete i (running c))).
    { apply Forall_app in Hrq as [Hr Hq]. split.
      - apply Forall_app. split; [by apply Forall_delete|done].
      - by apply Forall_delete. }
    destruct Hrest as [Hrq' Hrun'].
    assert (Hnf' : Forall (fun t => never_fetched t (dc ++ dc')) (successful_tickers s0)).
    { rewrite Forall_forall in *. intros t Ht. unfold never_fetched.
      intros [Hold|Hcall]%elem_of_app; [by apply (Hnf t Ht)|].
      assert (t = t0) as ->; [|done].
      destruct Hcalls as [->|[docs ->]].
      - apply list_elem_of_singleton in Hcall. by simplify_eq.
      - apply elem_of_cons in Hcall as [?|Hcall]; [by simplify_eq|].
        apply list_elem_of_singleton in Hcall. by simplify_eq. }
    destruct Hcase as [Heff'|Heff'].
    + exists (ds ++ [t0]), (du ++ []), (dc ++ dc').
      split; [by eapply effect_trans|]. split; [|done].
      rewrite app_nil_r. apply Forall_app in Hd as [Hds Hdu].
      repeat (apply Forall_app; split); try done. by apply Forall_singleton.
    + exists (ds ++ []), (du ++ [t0]), (dc ++ dc').
      split; [by eapply effect_trans|]. split; [|done].
      rewrite app_nil_r. apply Forall_app in Hd as [Hds Hdu].
      repeat (apply Forall_app; split); try done. by apply Forall_singleton.
  - by exists ds, du, dc.
  - by exists ds, du, dc.
  - by exists ds, du, dc.
  - by exists ds, du, dc.
Qed.

Lemma run_pool_effect (s0 : state) (tickers : list string) (schedule : list action)
    (c c' : config) :
  pool_effect s0 tickers c -> run W max_workers schedule c = Some c' ->
  pool_effect s0 tickers c'.
Proof.
  revert c. induction schedule as [|a schedule IH]; intros c Hinv Hrun; simpl in Hrun.
  - by simplify_eq.
  - destruct (step W max_workers a c) as [c1|] eqn:Hstep; [|done].
    eapply IH; [|done]. by eapply step_pool_effect.
Qed.

Lemma start_pool_effect (tickers : list string) (s : state) :
  pool_effect s tickers (parallel_process_stocks max_workers tickers s).
Proof.
  unfold parallel_process_stocks, pool_effect. exists [], [], [].
  destruct (max_workers <=? 0); simpl;
    (split; [apply effect_refl|]); repeat split; try constructor.
  - apply Forall_forall. intros t _. unfold never_fetched. apply not_elem_of_nil.
  - apply Forall_forall. auto.
  - apply Forall_forall. intros t _. unfold never_fetched. apply not_elem_of_nil.
Qed.


(** A ticker that is in the successful list when the run starts is never
    fetched from the provider during the run, whatever the other tickers
    of the run and the schedule. *)
Theorem successful_never_fetched (tickers : list string) (s0 : state) (c : config)
    (t : string) :
  reaches W max_workers (parallel_process_stocks max_workers tickers s0) c ->
  t ∈ successful_tickers s0 ->
  exists dc, calls (mem c) = calls s0 ++ dc /\ never_fetched t dc.
Proof.
  intros [schedule Hrun] Hin.
  destruct (run_pool_effect _ _ _ _ _ (start_pool_effect tickers s0) Hrun)
    as (ds & du & dc & Heff & _ & _ & _ & Hnf).
  exists dc. split; [by destruct Heff as (_ & _ & _ & _ & ?)|].
  rewrite Forall_forall in Hnf. by apply Hnf.
Qed.




Lemma step_once (a : action) (c c' : config) :
  once c -> step W max_workers a c = Some c' -> once c'.
Proof.
  unfold once. intros (Hnd & Hnew & Hs) Hstep.
  destruct a; simpl in Hstep; invert_step Hstep; simpl in *.
  - split; [|done]. apply NoDup_app in Hnd as (Hr & Hdis & Hq).
    apply NoDup_cons in Hq as [_ Hq]. apply NoDup_app. split; [done|]. split; [|done].
    intros t Ht Htq. apply (Hdis t Ht). by right.
  - split; [|split; [|done]].
    + by rewrite <- app_assoc.
    + apply Forall_app. split; [done|]. apply Forall_singleton.
      match goal with H : already_processed _ _ = false |- _ =>
        by apply bool_decide_eq_false_1 in H end.
  - match goal with H : running c !! _ = Some ?t |- _ =>
      rename H into Hlook; rename t into t0 end.
    assert (Ht0 : t0 ∉ successful_tickers (mem c)).
    { rewrite Forall_forall in Hnew. eapply Hnew, list_elem_of_lookup_2, Hlook. }
    assert (Hnd' : NoDup (delete i (running c) ++ queue c)).
    { apply (sublist_NoDup _ (running c ++ queue c)); [exact Hnd|].
      apply sublist_app; [|done]. apply sublist_delete. }
    assert (Hother : Forall (fun t => t <> t0) (delete i (running c))).
    { apply NoDup_app in Hnd as (Hr & _ & _).
      rewrite (delete_Permutation _ _ _ Hlook) in Hr.
      apply NoDup_cons in Hr as [Hnot _].
      apply Forall_forall. intros t Ht ->. done. }
    match goal with H : try_statement W _ _ = _ |- _ =>
      apply try_statement_ledgers in H as [[Hs' _]|[Hs' _]] end; rewrite Hs'.
    + split; [done|]. split.
      * apply Forall_forall. intros t Ht [Hold|Hlast%list_elem_of_singleton]%elem_of_app.
        -- rewrite Forall_forall in Hnew.
           apply (Hnew t); [|done]. eapply elem_of_sublist; [exact Ht|].
           apply sublist_delete.
        -- rewrite Forall_forall in Hother. by apply (Hother t).
      * apply NoDup_app. split; [done|]. split; [|apply NoDup_singleton].
        intros t Ht ->%list_elem_of_singleton. done.
    + split; [done|]. split; [|done]. by apply Forall_delete.
  - done.
  - done.
  - done.
  - done.
Qed.

Lemma run_once (schedule : list action) (c c' : config) :
  once c -> run W max_workers schedule c = Some c' -> once c'.
Proof.
  revert c. induction schedule as [|a schedule IH]; intros c Hinv Hrun; simpl in Hrun.
  - by simplify_eq.
  - destruct (step W max_workers a c) as [c1|] eqn:Hstep; [|done].
    eapply IH; [|done]. by eapply step_once.
Qed.

(** When no ticker is submitted twice, no ticker enters the successful
    list twice: a list without repeats stays without repeats, under every
    schedule. *)
Theorem successful_never_twice (tickers : list string) (s0 : state) (c : config) :
  NoDup tickers ->
  NoDup (successful_tickers s0) ->
  reaches W max_workers (parallel_process_stocks max_workers tickers s0) c ->
  NoDup (successful_tickers (mem c)).
Proof.
  intros Hnd Hs [schedule Hrun].
  assert (Hstart : once (parallel_process_stocks max_workers tickers s0)).
  { unfold once, parallel_process_stocks.
    destruct (max_workers <=? 0); simpl; repeat split; done || constructor. }
  by destruct (run_once _ _ _ Hstart Hrun) as (_ & _ & ?).
Qed.

End PoolLedgers.

End LedgerFacts.

(** ** Facts about the normalization and the document *)

Lemma storable_fixed (v : pyval) : storable v = true -> normalize_value v = v.
Proof.
  destruct v as [ | b | n | r | s | items | items ]; try done.
  unfold storable, normalize_value. simpl. intros Hstr. f_equal.
  induction items as [|item items IH]; [done|].
  simpl in *. apply andb_true_iff in Hstr as [Hitem Hitems].
  rewrite (IH Hitems). by destruct item.
Qed.

(** The loop leaves a value as it is exactly when the value is one the
    vector store takes: a string, an int, a float, a bool or a list of
    strings. *)
Theorem normalize_value_fixed_iff (v : pyval) :
  normalize_value v = v <-> storable v = true.
Proof.
  split.
  - intros Hfix. rewrite <- Hfix. apply normalize_value_storable.
  - apply storable_fixed.
Qed.

Lemma map_values_keys (f : pyval -> pyval) (d : dict) :
  (map (fun kv => (kv.1, f kv.2)) d).*1 = d.*1.
Proof. induction d as [|[k v] d IH]; [done|]. simpl. f_equal. exact IH. Qed.

(** Normalizing a record a second time changes nothing. *)
Theorem normalize_idempotent (stock_data : dict) :
  NoDup stock_data.*1 ->
  normalize (normalize stock_data) = normalize stock_data.
Proof.
  intros Hnd. rewrite (normalize_map stock_data Hnd).
  rewrite normalize_map.
  - rewrite map_map. apply map_ext. intros [k v]. simpl. f_equal.
    apply storable_fixed, normalize_value_storable.
  - by rewrite map_values_keys.
Qed.

Lemma business_summary_truthy (stock_info : gmap string pyval) :
  truthy (business_summary stock_info) = true.
Proof.
  unfold business_summary, py_or.
  by destruct (truthy (info_get stock_info "longBusinessSummary" VNone)) eqn:Htruthy.
Qed.

(** The summary of the record is never falsy: a provider summary that is
    missing, None, empty or zero gives "No data available", any other one
    is kept as it is, string or not. *)
Theorem summary_never_falsy (stock_info : gmap string pyval) :
  exists summary,
    dict_lookup "Business Summary" (properties stock_info) = Some summary
    /\ truthy summary = true
    /\ (stock_info !! "longBusinessSummary" = None -> summary = VStr "No data available")
    /\ (forall v, stock_info !! "longBusinessSummary" = Some v ->
          summary = if truthy v then v else VStr "No data available").
Proof.
  eexists. split; [reflexivity|]. unfold py_or, info_get.
  destruct (stock_info !! "longBusinessSummary") as [v|] eqn:Hv; simpl.
  - split; [by destruct (truthy v) eqn:Htruthy|]. split; [done|].
    by intros ? [= <-].
  - by repeat split.
Qed.

Section DocumentFacts.

Variable W : World.

(** The document [process_stock] hands to the vector store has a text
    that is not empty, and a metadata with the eight fields of the record,
    in order, each a string, an int, a float, a bool or a list of strings. *)
Theorem indexed_document_well_formed (t : string) (s : state)
    (stock_info : gmap string pyval) :
  t ∉ successful_tickers s ->
  ticker_info W (calls s) t = Ok stock_info ->
  exists doc,
    calls (process_stock W t s).2 = calls s ++ [CallInfo t; CallAddDocuments [doc]]
    /\ page_content doc <> ""
    /\ (metadata doc).*1 = field_names
    /\ Forall (fun kv => storable kv.2 = true) (metadata doc).
Proof.
  intros Hnew Hinfo. exists (indexed_document stock_info).
  split; [by apply process_stock_calls|]. unfold indexed_document. simpl.
  split; [|split].
  - pose proof (business_summary_truthy stock_info) as Htruthy.
    destruct (business_summary stock_info) as [ | | | |text| | ]; try done.
    simpl in Htruthy. intros ->. done.
  - rewrite normalize_properties. by rewrite map_values_keys.
  - rewrite normalize_properties. apply Forall_forall. intros kv Hin.
    apply list_elem_of_fmap in Hin as (kv' & -> & _). apply normalize_value_storable.
Qed.

End DocumentFacts.

(** ** Facts about the replies of [research] *)

(** The reply of [research] tells what happened and nothing more: a
    response only for a query that is not empty and a search that
    succeeded, with one result per match; status 400 only for an empty
    query; and for a search that raised, status 500 with the same detail
    whatever the exception. *)
Theorem research_reply_cases (G : Gateway) (search : SearchRequest.t)
    (searches : list (string * Z)) :
  match (research G search searches).1 with
  | Response body =>
      SearchRequest.query search <> ""
      /\ SearchResponse.query body = SearchRequest.query search
      /\ exists matches,
           similarity_search G searches (SearchRequest.query search)
             (SearchRequest.k search) = Ok matches
           /\ length (SearchResponse.results body) = length matches
  | HTTPException code detail =>
      (code = 400 /\ detail = "Query parameter is required."
       /\ SearchRequest.query search = "")
      \/ (code = 500 /\ detail = "Internal Server Error"
          /\ SearchRequest.query search <> ""
          /\ exists e, similarity_search G searches (SearchRequest.query search)
                         (SearchRequest.k search) = Raise e)
  end.
Proof.
  unfold research. simpl.
  destruct (String.eqb_spec (SearchRequest.query search) "") as [Heq|Hne]; simpl.
  - by left.
  - destruct (similarity_search G _ _ _) as [matches|e] eqn:Hsearch; simpl.
    + split; [done|]. split; [done|]. exists matches. by rewrite length_map.
    + right. repeat split; try done. by exists e.
Qed.

(** ** Facts about the main block *)

Section MainBlockFacts.

Variable not_subscriptable : pyval -> exn.

Lemma ticker_of_spec (stock t : pyval) :
  ticker_of not_subscriptable stock = Ok t <-> has_ticker stock t.
Proof.
  unfold ticker_of, has_ticker. split.
  - destruct stock as [ | | | | | |fields]; try done.
    destruct (dict_lookup "ticker" fields) as [t'|] eqn:Hlook; [|done].
    intros [= <-]. by exists fields.
  - intros (fields & -> & Hlook). by rewrite Hlook.
Qed.

Lemma tickers_of_spec (stocks tickers : list pyval) :
  tickers_of not_subscriptable stocks = Ok tickers <-> Forall2 has_ticker stocks tickers.
Proof.
  revert tickers. induction stocks as [|stock stocks IH]; intros tickers; simpl.
  - split; [intros [= <-]; constructor|by intros ->%Forall2_nil_inv_l].
  - split.
    + destruct (ticker_of not_subscriptable stock) as [t|e] eqn:Ht; [|done].
      destruct (tickers_of not_subscriptable stocks) as [ts|e] eqn:Hts; [|done].
      intros [= <-]. constructor; [by apply ticker_of_spec|by apply IH].
    + intros (t & ts & Ht & Hts & ->)%Forall2_cons_inv_l.
      apply ticker_of_spec in Ht as ->. apply IH in Hts as ->. done.
Qed.

(** The main block ends without handing anything to the pool and without
    an exception exactly when the catalog request was answered with a
    status other than 200, or with status 200 and a body that reads as a
    falsy value (an empty catalog, null); on a status other than 200
    nothing is saved and the status is printed. *)
Theorem nothing_to_do_iff (answer : result http_response) :
  (outcome_of (main_block not_subscriptable answer) = NothingToDo <->
   exists response,
     answer = Ok response
     /\ (status_code response <> 200
         \/ exists v, body_json response = Ok v /\ truthy v = false))
  /\ (forall response,
        answer = Ok response -> status_code response <> 200 ->
        main_block not_subscriptable answer
        = {| outcome_of := NothingToDo; catalog_saved := None;
             main_printed := ["Failed to download file. Status code: "
                              +:+ pretty (status_code response)] |}).
Proof.
  split.
  - unfold main_block, get_company_tickers.
    destruct answer as [response|e]; simpl.
    + destruct (Z.eqb_spec (status_code response) 200) as [Hok|Hno]; simpl.
      * destruct (body_json response) as [v|e] eqn:Hbody; simpl.
        -- destruct (truthy v) eqn:Htruthy; simpl.
           ++ split.
              ** destruct (py_len v); simpl; [|done].
                 destruct (py_values v); simpl; [|done].
                 by destruct (tickers_of not_subscriptable _).
              ** intros (response' & [= <-] & [Hno|(v' & Hv' & Hfalse)]); [done|].
                 rewrite Hbody in Hv'. injection Hv' as <-. congruence.
           ++ split; [|done]. intros _. exists response. split; [done|].
              right. by exists v.
        -- split; [done|].
           intros (response' & [= <-] & [Hno|(v' & Hv' & _)]); [done|].
           by rewrite Hbody in Hv'.
      * split; [|done]. intros _. exists response. split; [done|]. by left.
    + split; [done|]. by intros (response' & ? & _).
  - intros response -> Hno. unfold main_block, get_company_tickers.
    by destruct (Z.eqb_spec (status_code response) 200).
Qed.

(** When the request is answered with status 200 and a catalog that is a
    mapping with at least one record, the catalog is saved, and the main
    block calls the pool exactly when every record has a ticker: then with
    the tickers of the records, one per record, in the order of the
    catalog. A record without ticker ends the block with an exception
    before any stock is processed. *)
Theorem main_hands_over_tickers (response : http_response) (records : dict) :
  status_code response = 200 ->
  body_json response = Ok (VDict records) ->
  records <> [] ->
  let run_of := main_block not_subscriptable (Ok response) in
  catalog_saved run_of = Some (VDict records)
  /\ (forall tickers,
        outcome_of run_of = Start tickers <-> Forall2 has_ticker records.*2 tickers)
  /\ ((forall tickers, ~ Forall2 has_ticker records.*2 tickers) ->
      exists e, outcome_of run_of = Crash e)
  /\ outcome_of run_of <> NothingToDo.
Proof.
  intros Hok Hbody Hne. unfold main_block, get_company_tickers.
  rewrite Hok, Hbody. simpl.
  destruct records as [|record records]; [done|]. simpl.
  destruct (tickers_of not_subscriptable ((record :: records).*2)) as [ts|e] eqn:Hts;
    simpl in Hts; rewrite Hts; simpl.
  - split; [done|]. split; [|split; [|done]].
    + intros tickers. split.
      * intros [= <-]. by apply tickers_of_spec.
      * intros Hall. apply tickers_of_spec in Hall. simpl in Hall.
        rewrite Hts in Hall. by simplify_eq.
    + intros Hnone. destruct (Hnone ts). by apply tickers_of_spec.
  - split; [done|]. split; [|split; [|done]].
    + intros tickers. split; [done|].
      intros Hall. apply tickers_of_spec in Hall. simpl in Hall.
      by rewrite Hts in Hall.
    + intros _. by exists e.
Qed.

End MainBlockFacts.

(** ** The further theorems at sample inputs *)

Lemma every_task_runs_witness :
  0 < 1
  /\ reaches sample_world 1 sample_start sample_exited
  /\ alive (main sample_exited) = false
  /\ Forall (in_a_ledger (mem sample_exited)) ["ZZZZ"; "XOM"].
Proof.
  assert (Hpos : 0 < 1) by lia.
  assert (Hreach : reaches sample_world 1 sample_start sample_exited).
  { exists [WorkerStart; WorkerFinish 0; Collect 0; WorkerStart; WorkerFinish 0; Leave].
    by vm_compute. }
  assert (Hend : alive (main sample_exited) = false) by (by vm_compute).
  split; [exact Hpos|]. split; [exact Hreach|]. split; [exact Hend|].
  exact (proj2 (proj2 (proj2 (every_task_runs sample_world 1 ["ZZZZ"; "XOM"] no_ledger
                                sample_exited Hpos Hreach Hend)))).
Defined.

Lemma process_stock_success_witness :
  ("XOM" ∉ successful_tickers no_ledger)
  /\ ticker_info sample_world (calls no_ledger) "XOM" = Ok xom_info
  /\ (process_stock sample_world "XOM" no_ledger).1 = Ok "Processed XOM successfully".
Proof.
  assert (Hnew : "XOM" ∉ successful_tickers no_ledger) by apply not_elem_of_nil.
  assert (Hinfo : ticker_info sample_world (calls no_ledger) "XOM" = Ok xom_info)
    by reflexivity.
  split; [exact Hnew|]. split; [exact Hinfo|].
  exact (f_equal fst (process_stock_success sample_world "XOM" no_ledger xom_info
                        Hnew Hinfo eq_refl)).
Defined.

Lemma process_stock_once_witness :
  ("XOM" ∉ successful_tickers no_ledger)
  /\ process_stock sample_world "XOM" (process_stock sample_world "XOM" no_ledger).2
     = (Ok "Already processed XOM", (process_stock sample_world "XOM" no_ledger).2).
Proof.
  assert (Hnew : "XOM" ∉ successful_tickers no_ledger) by apply not_elem_of_nil.
  split; [exact Hnew|].
  apply (process_stock_once sample_world "XOM" no_ledger); [|exact Hnew].
  by vm_compute.
Defined.


Lemma successful_never_fetched_witness :
  reaches sample_world 2 resumed_start resumed_end
  /\ "XOM" ∈ successful_tickers resumed_ledger
  /\ exists dc, calls (mem resumed_end) = calls resumed_ledger ++ dc
                /\ never_fetched "XOM" dc.
Proof.
  assert (Hreach : reaches sample_world 2 resumed_start resumed_end).
  { exists [WorkerStart; WorkerStart; WorkerFinish 0; Collect 0; Collect 0; Leave].
    by vm_compute. }
  assert (Hin : "XOM" ∈ successful_tickers resumed_ledger) by apply list_elem_of_here.
  split; [exact Hreach|]. split; [exact Hin|].
  exact (successful_never_fetched sample_world 2 ["XOM"; "ODD"] resumed_ledger resumed_end
           "XOM" Hreach Hin).
Defined.

Lemma successful_never_twice_witness :
  NoDup ["XOM"; "ODD"]
  /\ NoDup (successful_tickers resumed_ledger)
  /\ reaches sample_world 2 resumed_start resumed_end
  /\ NoDup (successful_tickers (mem resumed_end)).
Proof.
  assert (Hnd : NoDup ["XOM"; "ODD"]).
  { apply NoDup_cons. split; [|apply NoDup_singleton].
    intros Hin%list_elem_of_singleton. discriminate Hin. }
  assert (Hs : NoDup (successful_tickers resumed_ledger)) by apply NoDup_singleton.
  assert (Hreach : reaches sample_world 2 resumed_start resumed_end).
  { exists [WorkerStart; WorkerStart; WorkerFinish 0; Collect 0; Collect 0; Leave].
    by vm_compute. }
  split; [exact Hnd|]. split; [exact Hs|]. split; [exact Hreach|].
  exact (successful_never_twice sample_world 2 ["XOM"; "ODD"] resumed_ledger resumed_end
           Hnd Hs Hreach).
Defined.

Lemma load_tickers_appended_witness :
  terminated ("XOM" +:+ newline)
  /\ Forall (fun t => is_token t = true) ["ODD"]
  /\ load_tickers (Some (("XOM" +:+ newline) +:+ lines_text ["ODD"]))
     = load_tickers (Some ("XOM" +:+ newline)) ++ ["ODD"].
Proof.
  assert (Hterm : terminated ("XOM" +:+ newline)) by (right; by exists "XOM").
  assert (Htok : Forall (fun t => is_token t = true) ["ODD"]).
  { by apply Forall_singleton. }
  split; [exact Hterm|]. split; [exact Htok|].
  exact (load_tickers_appended ("XOM" +:+ newline) ["ODD"] Hterm Htok).
Defined.



Lemma normalize_idempotent_witness :
  NoDup (properties odd_info).*1
  /\ normalize (normalize (properties odd_info)) = normalize (properties odd_info).
Proof.
  assert (Hnd : NoDup (properties odd_info).*1) by exact field_names_NoDup.
  split; [exact Hnd|]. exact (normalize_idempotent (properties odd_info) Hnd).
Defined.

Lemma indexed_document_well_formed_witness :
  ("ODD" ∉ successful_tickers resumed_ledger)
  /\ ticker_info sample_world (calls resumed_ledger) "ODD" = Ok odd_info
  /\ exists doc,
       calls (process_stock sample_world "ODD" resumed_ledger).2
       = calls resumed_ledger ++ [CallInfo "ODD"; CallAddDocuments [doc]]
       /\ page_content doc <> ""
       /\ (metadata doc).*1 = field_names
       /\ Forall (fun kv => storable kv.2 = true) (metadata doc).
Proof.
  assert (Hnew : "ODD" ∉ successful_tickers resumed_ledger).
  { simpl. intros Hin. apply list_elem_of_singleton in Hin. discriminate Hin. }
  assert (Hinfo : ticker_info sample_world (calls resumed_ledger) "ODD" = Ok odd_info)
    by reflexivity.
  split; [exact Hnew|]. split; [exact Hinfo|].
  exact (indexed_document_well_formed sample_world "ODD" resumed_ledger odd_info Hnew Hinfo).
Defined.

Lemma main_hands_over_tickers_witness :
  outcome_of (main_block sample_subscript_error
                (Ok {| status_code := 200; body_json := Ok sample_catalog |}))
  = Start [VStr "AAPL"; VStr "MSFT"].
Proof.
  apply (proj1 (proj2 (main_hands_over_tickers sample_subscript_error
                         {| status_code := 200; body_json := Ok sample_catalog |}
                         [ ("0", VDict [("cik_str", VInt 320193); ("ticker", VStr "AAPL");
                                        ("title", VStr "Apple Inc.")]);
                           ("1", VDict [("cik_str", VInt 789019); ("ticker", VStr "MSFT");
                                        ("title", VStr "MICROSOFT CORP")]) ]
                         eq_refl eq_refl ltac:(discriminate)))).
  repeat constructor; eexists; (split; [reflexivity|reflexivity]).
Defined.
